(** * Polar H10 health checker: acquisition, buffering and export pipeline

    A shallow embedding of [main.py] (the Dash variant; [app.py] carries
    the same notification handlers and the same export code behind a Qt
    front end) and the properties of its packet decoding, session store,
    display window and CSV export.

    Conventions of the embedding:
    - a [bytearray] is a [list byte]; a Python [int] is a [Z];
    - the module-level globals form the record [State], threaded
      explicitly through the handlers;
    - a call either returns, raises, or (in the model only) exhausts the
      fuel of a [while] loop: type [outcome];
    - [sample_counter / SAMPLING_RATE] is Python's true division of two
      integers; the code stores the double nearest to the quotient, the
      embedding keeps the quotient itself, [truediv], so that no
      statement below may depend on the digits of a stored time;
    - a [datetime] is the number of microseconds since an epoch that
      falls on a whole second: microseconds are the resolution of
      Python's [datetime] and of the ["%f"] format used for the exported
      ECG timestamps. The calendar, and with it the range of years a
      [datetime] can hold, is left out. *)

From Stdlib Require Import ZArith QArith_base Strings.String Strings.Byte Lia.
From Stdlib Require Import Sorting.Sorted.
From stdpp Require Import base tactics option list relations.

Local Open Scope Z_scope.

(** ** Python values *)

Definition byte_val (b : byte) : Z := Z.of_N (Byte.to_N b).

(** [len(l)] *)
Definition len {A} (l : list A) : Z := Z.of_nat (length l).

Inductive exception : Type :=
  | IndexError
  | ValueError.

Inductive outcome (A : Type) : Type :=
  | Returned (a : A)
  | Raised (e : exception)
  | OutOfFuel.
Arguments Returned {A} a.
Arguments Raised {A} e.
Arguments OutOfFuel {A}.

#[global] Instance outcome_ret : MRet outcome := fun A a => Returned a.
#[global] Instance outcome_bind : MBind outcome := fun A B f m =>
  match m with
  | Returned a => f a
  | Raised e => Raised e
  | OutOfFuel => OutOfFuel
  end.

(** [l[i]], with Python's negative indices and its [IndexError]. *)
Definition getitem {A} (l : list A) (i : Z) : outcome A :=
  let j := if i <? 0 then i + len l else i in
  if j <? 0 then Raised IndexError
  else match l !! Z.to_nat j with
       | Some x => Returned x
       | None => Raised IndexError
       end.

(** A slice bound, clamped the way Python clamps it. *)
Definition clamp {A} (l : list A) (i : Z) : Z :=
  if i <? 0 then Z.max 0 (i + len l) else Z.min i (len l).

(** [l[start:stop]] and [l[start:]]; slices never raise. *)
Definition slice {A} (l : list A) (start stop : Z) : list A :=
  let a := clamp l start in
  let b := clamp l stop in
  take (Z.to_nat (b - a)) (drop (Z.to_nat a) l).

Definition slice_from {A} (l : list A) (start : Z) : list A :=
  drop (Z.to_nat (clamp l start)) l.

(** [int.from_bytes(bs, byteorder="little", signed=signed)] *)
Fixpoint le_unsigned (bs : list byte) : Z :=
  match bs with
  | [] => 0
  | b :: rest => byte_val b + 256 * le_unsigned rest
  end.

Definition int_from_bytes_little (signed : bool) (bs : list byte) : Z :=
  let u := le_unsigned bs in
  let nbits := 8 * len bs in
  if signed && Z.testbit u (nbits - 1) then u - 2 ^ nbits else u.

(** [a / b] on two Python integers. *)
Definition truediv (a b : Z) : Q := Qdiv (inject_Z a) (inject_Z b).

(** ** The session state (module-level globals of main.py) *)

Definition datetime : Type := Z.

Record State : Type := mkState {
  ecg_session_data : list Z;
  ecg_session_time : list Q;
  sample_counter : Z;
  current_ble_hr : option Z;
  hr_log : list (datetime * Z)
}.

Definition SAMPLING_RATE : Z := 100.

Definition initial_state : State :=
  {| ecg_session_data := [];
     ecg_session_time := [];
     sample_counter := 0;
     current_ble_hr := None;
     hr_log := [] |}.

(** ** pmd_data_handler (main.py lines 41-63) *)

Definition step : Z := 3.

(** One pass through the body of the [while] loop: the three statements
    that touch the globals. *)
Definition append_sample (ecg_value : Z) (st : State) : State :=
  {| ecg_session_data := ecg_session_data st ++ [ecg_value];
     ecg_session_time :=
       ecg_session_time st ++ [truediv (sample_counter st) SAMPLING_RATE];
     sample_counter := sample_counter st + 1;
     current_ble_hr := current_ble_hr st;
     hr_log := hr_log st |}.

(** [while offset + step <= len(samples): ...; offset += step] *)
Fixpoint ecg_loop (fuel : nat) (samples : list byte) (offset : Z) (st : State)
  : outcome State :=
  if offset + step <=? len samples then
    match fuel with
    | O => OutOfFuel
    | S fuel' =>
        let ecg_value :=
          int_from_bytes_little true (slice samples offset (offset + step)) in
        ecg_loop fuel' samples (offset + step) (append_sample ecg_value st)
    end
  else Returned st.

Definition pmd_data_handler (data : list byte) (st : State) : outcome State :=
  if bool_decide (data = []) then Returned st
  else
    b0 ← getitem data 0;
    if byte_val b0 =? 0 then
      let samples := slice_from data 10 in
      ecg_loop (length samples) samples 0 st
    else Returned st.

(** ** parse_heart_rate_measurement (main.py lines 66-76)

    The [print] of the parsed value is not part of the state. *)

Definition parse_heart_rate_measurement (data : list byte) : outcome Z :=
  b0 ← getitem data 0;
  if Z.land (byte_val b0) 1 =? 0 then
    b1 ← getitem data 1;
    mret (byte_val b1)
  else
    mret (int_from_bytes_little false (slice data 1 3)).

(** ** heart_rate_notification_handler (main.py lines 79-88)

    [now] is the value of [datetime.now()] at the call. The format
    ["%Y-%m-%d %H:%M:%S"] keeps whole seconds only. *)

Definition strftime_seconds (t : datetime) : datetime := t - t mod 1000000.

Definition heart_rate_notification_handler
    (now : datetime) (data : list byte) (st : State) : outcome State :=
  hr ← parse_heart_rate_measurement data;
  mret {| ecg_session_data := ecg_session_data st;
          ecg_session_time := ecg_session_time st;
          sample_counter := sample_counter st;
          current_ble_hr := Some hr;
          hr_log := hr_log st ++ [(strftime_seconds now, hr)] |}.

(** ** The notification stream (ble_main, main.py lines 101-103)

    Both handlers are registered on the one BLE client and run one
    notification at a time. A handler that raises has not yet touched
    the globals, so only returning calls move the session. *)

Inductive notification : Type :=
  | PmdData (data : list byte)
  | HeartRateMeasurement (now : datetime) (data : list byte).

Definition deliver (n : notification) (st : State) : outcome State :=
  match n with
  | PmdData data => pmd_data_handler data st
  | HeartRateMeasurement now data =>
      heart_rate_notification_handler now data st
  end.

Definition delivers (st st' : State) : Prop :=
  ∃ n, deliver n st = Returned st'.

Definition reachable (st : State) : Prop := rtc delivers initial_state st.

(** ** update_graph (main.py lines 143-173) *)

Definition window_size : Z := SAMPLING_RATE * 10.

(** Lines 148-152: the most recent ten seconds. *)
Definition recent_window (data : list Z) (times : list Q) : list Z * list Q :=
  if window_size <? len data
  then (slice_from data (- window_size), slice_from times (- window_size))
  else (data, times).

Record Figure : Type := mkFigure {
  line_x : list Q;
  line_y : list Z;
  r_peaks : option (list Q * list Z)
}.

(** The points of the "R Peaks" scatter trace of a figure. *)
Definition peak_markers (fig : Figure) : list (Q * Z) :=
  match r_peaks fig with
  | Some (xs, ys) => zip xs ys
  | None => []
  end.

Section Display.
(** numpy and scipy are not part of the repository: [np.std],
    the float product and [scipy.signal.find_peaks] are parameters. *)
Context {float : Type}.
Variable np_std : list Z → float.
Variable fmul : Q → float → float.
Variable find_peaks : list Z → Q → float → list Z.

Definition update_graph (st : State) : outcome (Figure * option Z) :=
  let data := ecg_session_data st in
  let times := ecg_session_time st in
  let ble_hr := current_ble_hr st in
  let '(data, times) := recent_window data times in
  (* pd.DataFrame({"time": times, "ecg": data}) *)
  if negb (len times =? len data) then Raised ValueError
  else
    let fig := {| line_x := times; line_y := data; r_peaks := None |} in
    if 0 <? len data then
      let peaks :=
        find_peaks data (Qmult (inject_Z SAMPLING_RATE) (Qmake 3 10))
                   (fmul (Qmake 1 2) (np_std data)) in
      xs ← mapM (getitem times) peaks;
      ys ← mapM (getitem data) peaks;
      mret ({| line_x := times; line_y := data; r_peaks := Some (xs, ys) |},
            ble_hr)
    else mret (fig, ble_hr).
End Display.

(** ** generate_combined_csv (main.py lines 181-205) *)

Record Row : Type := mkRow {
  timestamp : datetime;
  source : string;
  value : Z
}.

(** Rounding to the nearest integer, ties to even. *)
Definition round_half_even (q : Q) : Z :=
  let d := Z.pos (Qden q) in
  let fl := Qnum q / d in
  let r := Qnum q mod d in
  match 2 * r ?= d with
  | Lt => fl
  | Gt => fl + 1
  | Eq => if Z.even fl then fl else fl + 1
  end.

(** [timedelta(seconds=s)], in microseconds. *)
Definition timedelta_seconds (s : Q) : Z :=
  round_half_even (Qmult s (inject_Z 1000000)).

(** [pd.to_datetime] of a rendered timestamp gives the instant back. *)
Definition to_datetime (t : datetime) : datetime := t.

(** [list.sort(key=...)] is stable: elements with equal keys keep their
    order. Insertion of the head into the sorted tail, in front of the
    first element whose key is not smaller, is such a sort. *)
Fixpoint insert_by {A} (key : A → Z) (x : A) (l : list A) : list A :=
  match l with
  | [] => [x]
  | y :: l' => if key x <=? key y then x :: y :: l' else y :: insert_by key x l'
  end.

Fixpoint list_sort {A} (key : A → Z) (l : list A) : list A :=
  match l with
  | [] => []
  | x :: l' => insert_by key x (list_sort key l')
  end.

Definition ecg_row (session_start_time : datetime) (p : Q * Z) : Row :=
  let '(rel_time, ecg_value) := p in
  let abs_time := session_start_time + timedelta_seconds rel_time in
  {| timestamp := abs_time; source := "ECG"; value := ecg_value |}.

Definition hr_row (p : datetime * Z) : Row :=
  let '(ts, hr) := p in
  {| timestamp := ts; source := "Heart Rate"; value := hr |}.

Definition generate_combined_csv
    (session_start_time : datetime) (st : State) : outcome (list Row) :=
  let ecg_times := ecg_session_time st in
  let ecg_values := ecg_session_data st in
  let hr_data_local := hr_log st in
  let rows := ecg_row session_start_time <$> zip ecg_times ecg_values in
  let rows := rows ++ (hr_row <$> hr_data_local) in
  mret (list_sort (λ row, to_datetime (timestamp row)) rows).

(** The order of two elements under a sort key. *)
Definition key_le {A} (key : A → Z) (a b : A) : Prop := key a ≤ key b.

(** ** The decoding and the store, in the words of the specification *)

(** A signed 24-bit little-endian sample: sign extension on the
    most-significant byte. *)
Definition sint24_le (g : byte * byte * byte) : Z :=
  let '(b0, b1, b2) := g in
  let u := byte_val b0 + 256 * byte_val b1 + 65536 * byte_val b2 in
  if 8388608 <=? u then u - 16777216 else u.

(** The complete 3-byte groups of a byte sequence, in order; a remainder
    of fewer than 3 bytes is dropped. *)
Fixpoint groups3 (bs : list byte) : list (byte * byte * byte) :=
  match bs with
  | b0 :: b1 :: b2 :: rest => (b0, b1, b2) :: groups3 rest
  | _ => []
  end.

Definition ungroup3 (gs : list (byte * byte * byte)) : list byte :=
  gs ≫= (λ '(b0, b1, b2), [b0; b1; b2]).

(** The amplitudes of a notification payload. *)
Definition amplitudes_of_payload (payload : list byte) : list Z :=
  match payload with
  | [] => []
  | tag :: _ =>
      if byte_val tag =? 0 then sint24_le <$> groups3 (drop 10 payload) else []
  end.

(** Appending a batch of amplitudes to the store, one sample at a time. *)
Definition append_waveform (amplitudes : list Z) (st : State) : State :=
  foldl (λ s v, append_sample v s) st amplitudes.

(** The relative times given to [n] samples appended from counter [c]. *)
Definition times_from (c : Z) (n : nat) : list Q :=
  (λ i : nat, truediv (c + Z.of_nat i) SAMPLING_RATE) <$> seq 0 n.

(** A payload is truncated when its 10-byte header is cut short or its
    sample area does not end on a 3-byte boundary. *)
Definition truncated (payload : list byte) : bool :=
  (len payload <? 10) || negb ((len payload - 10) mod 3 =? 0).

(** The store's invariant: the counter is the number of samples, and
    the times are those of the indices 0, 1, 2, ... *)
Definition session_invariant (st : State) : Prop :=
  sample_counter st = len (ecg_session_data st)
  ∧ ecg_session_time st = times_from 0 (length (ecg_session_data st)).

(** What a session has stored is a prefix of what it stores later. *)
Definition extends (st st' : State) : Prop :=
  ecg_session_data st `prefix_of` ecg_session_data st'
  ∧ ecg_session_time st `prefix_of` ecg_session_time st'
  ∧ hr_log st `prefix_of` hr_log st'.

(** ** Threads and data_lock

    The BLE thread runs the two notification handlers, one notification
    after the other; the Dash callbacks [update_graph] and
    [generate_combined_csv] run on threads of their own. Every access to
    the globals sits inside a [with data_lock:] block. A block is the
    list of the statements it executes on the globals; the threads
    interleave statement by statement. *)

Inductive op : Type :=
  | AppendData (ecg_value : Z)  (* ecg_session_data.append(ecg_value) *)
  | AppendTime  (* ecg_session_time.append(sample_counter / SAMPLING_RATE) *)
  | IncrCounter                 (* sample_counter += 1 *)
  | SetBleHr (hr : Z)           (* current_ble_hr = hr *)
  | AppendHrLog (entry : datetime * Z)  (* hr_log.append((..., hr)) *)
  | CopyData                    (* ... = ecg_session_data.copy() *)
  | CopyTime                    (* ... = ecg_session_time.copy() *)
  | ReadBleHr                   (* ble_hr = current_ble_hr *)
  | CopyHrLog.                  (* hr_data_local = list(hr_log) *)

(** The local variables a callback fills inside its block. *)
Record Locals : Type := mkLocals {
  data_copy : list Z;
  times_copy : list Q;
  ble_hr_copy : option Z;
  hr_log_copy : list (datetime * Z)
}.

Definition no_locals : Locals :=
  {| data_copy := []; times_copy := []; ble_hr_copy := None;
     hr_log_copy := [] |}.

Definition exec_op (o : op) (st : State) (l : Locals) : State * Locals :=
  match o with
  | AppendData ecg_value =>
      (mkState (ecg_session_data st ++ [ecg_value]) (ecg_session_time st)
               (sample_counter st) (current_ble_hr st) (hr_log st), l)
  | AppendTime =>
      (mkState (ecg_session_data st)
               (ecg_session_time st
                  ++ [truediv (sample_counter st) SAMPLING_RATE])
               (sample_counter st) (current_ble_hr st) (hr_log st), l)
  | IncrCounter =>
      (mkState (ecg_session_data st) (ecg_session_time st)
               (sample_counter st + 1) (current_ble_hr st) (hr_log st), l)
  | SetBleHr hr =>
      (mkState (ecg_session_data st) (ecg_session_time st)
               (sample_counter st) (Some hr) (hr_log st), l)
  | AppendHrLog entry =>
      (mkState (ecg_session_data st) (ecg_session_time st)
               (sample_counter st) (current_ble_hr st) (hr_log st ++ [entry]),
       l)
  | CopyData =>
      (st, mkLocals (ecg_session_data st) (times_copy l) (ble_hr_copy l)
                    (hr_log_copy l))
  | CopyTime =>
      (st, mkLocals (data_copy l) (ecg_session_time st) (ble_hr_copy l)
                    (hr_log_copy l))
  | ReadBleHr =>
      (st, mkLocals (data_copy l) (times_copy l) (current_ble_hr st)
                    (hr_log_copy l))
  | CopyHrLog =>
      (st, mkLocals (data_copy l) (times_copy l) (ble_hr_copy l) (hr_log st))
  end.

(** A block run without interruption. *)
Fixpoint run_ops (ops : list op) (st : State) (l : Locals) : State * Locals :=
  match ops with
  | [] => (st, l)
  | o :: ops' => let '(st', l') := exec_op o st l in run_ops ops' st' l'
  end.

(** The statements of the [while] loop of pmd_data_handler. *)
Fixpoint ecg_loop_ops (fuel : nat) (samples : list byte) (offset : Z)
  : list op :=
  if offset + step <=? len samples then
    match fuel with
    | O => []
    | S fuel' =>
        let ecg_value :=
          int_from_bytes_little true (slice samples offset (offset + step)) in
        AppendData ecg_value :: AppendTime :: IncrCounter
          :: ecg_loop_ops fuel' samples (offset + step)
    end
  else [].

(** The block a handler enters on a notification, if it gets that far:
    pmd_data_handler returns before the lock on an empty payload or a
    foreign tag, heart_rate_notification_handler parses before the lock
    and may raise there. *)
Definition handler_section (n : notification) : option (list op) :=
  match n with
  | PmdData data =>
      if bool_decide (data = []) then None
      else match getitem data 0 with
           | Returned b0 =>
               if byte_val b0 =? 0 then
                 let samples := slice_from data 10 in
                 Some (ecg_loop_ops (length samples) samples 0)
               else None
           | _ => None
           end
  | HeartRateMeasurement now data =>
      match parse_heart_rate_measurement data with
      | Returned hr =>
          Some [SetBleHr hr; AppendHrLog (strftime_seconds now, hr)]
      | _ => None
      end
  end.

Inductive callback : Type :=
  | UpdateGraph
  | GenerateCombinedCsv.

(** main.py lines 144-147 and 182-185. *)
Definition callback_section (cb : callback) : list op :=
  match cb with
  | UpdateGraph => [CopyData; CopyTime; ReadBleHr]
  | GenerateCombinedCsv => [CopyTime; CopyData; CopyHrLog]
  end.

Inductive owner : Type :=
  | BleThread
  | DashThread (i : nat).

(** A callback thread: the block it is in (what is left of it, and its
    locals so far), and the snapshots its finished blocks have taken. *)
Record dash_thread : Type := mkDash {
  dash_running : option (callback * list op * Locals);
  dash_snapshots : list (callback * Locals)
}.

Record config : Type := mkConfig {
  shared : State;
  data_lock : option owner;
  ble_pending : list notification;
  ble_running : option (list op);
  dash : list dash_thread
}.

Definition initial_config (ns : list notification) (threads : nat) : config :=
  {| shared := initial_state;
     data_lock := None;
     ble_pending := ns;
     ble_running := None;
     dash := replicate threads (mkDash None []) |}.

Inductive thread_step : config → config → Prop :=
  | ble_skip c n ns :
      ble_running c = None →
      ble_pending c = n :: ns →
      handler_section n = None →
      thread_step c
        (mkConfig (shared c) (data_lock c) ns None (dash c))
  | ble_acquire c n ns ops :
      data_lock c = None →
      ble_running c = None →
      ble_pending c = n :: ns →
      handler_section n = Some ops →
      thread_step c
        (mkConfig (shared c) (Some BleThread) ns (Some ops) (dash c))
  | ble_exec c o ops :
      ble_running c = Some (o :: ops) →
      thread_step c
        (mkConfig (exec_op o (shared c) no_locals).1 (data_lock c)
                  (ble_pending c) (Some ops) (dash c))
  | ble_release c :
      ble_running c = Some [] →
      thread_step c
        (mkConfig (shared c) None (ble_pending c) None (dash c))
  | dash_acquire c i t cb :
      data_lock c = None →
      dash c !! i = Some t →
      dash_running t = None →
      thread_step c
        (mkConfig (shared c) (Some (DashThread i)) (ble_pending c)
           (ble_running c)
           (<[i := mkDash (Some (cb, callback_section cb, no_locals))
                          (dash_snapshots t)]> (dash c)))
  | dash_exec c i t cb o ops l :
      dash c !! i = Some t →
      dash_running t = Some (cb, o :: ops, l) →
      thread_step c
        (mkConfig (exec_op o (shared c) l).1 (data_lock c) (ble_pending c)
           (ble_running c)
           (<[i := mkDash (Some (cb, ops, (exec_op o (shared c) l).2))
                          (dash_snapshots t)]> (dash c)))
  | dash_release c i t cb l :
      dash c !! i = Some t →
      dash_running t = Some (cb, [], l) →
      thread_step c
        (mkConfig (shared c) None (ble_pending c) (ble_running c)
           (<[i := mkDash None (dash_snapshots t ++ [(cb, l)])]> (dash c))).

(** The session after a sequence of notifications, each handled without
    interruption; a handler that raises leaves the session as it was. *)
Definition after (n : notification) (st : State) : State :=
  match deliver n st with
  | Returned st' => st'
  | _ => st
  end.

Definition run_notifications (ns : list notification) (st : State) : State :=
  foldl (λ s n, after n s) st ns.

(** What a callback's block reads when nothing interrupts it. *)
Definition atomic_snapshot (cb : callback) (st : State) : Locals :=
  (run_ops (callback_section cb) st no_locals).2.

(** Statements that only read the globals. *)
Definition read_only (o : op) : Prop :=
  match o with
  | CopyData | CopyTime | ReadBleHr | CopyHrLog => True
  | _ => False
  end.

(** What holds of every configuration the threads can reach from
    [initial_config ns threads]. *)
Record config_invariant (ns : list notification) (c : config) : Prop := {
  inv_ble_lock :
    ble_running c ≠ None → data_lock c = Some BleThread;
  inv_dash_lock : ∀ i t,
    dash c !! i = Some t → dash_running t ≠ None →
    data_lock c = Some (DashThread i);
  inv_ble_progress :
    ∃ handled,
      match ble_running c with
      | None =>
          ns = handled ++ ble_pending c
          ∧ shared c = run_notifications handled initial_state
      | Some ops =>
          ∃ n, ns = handled ++ n :: ble_pending c
               ∧ (run_ops ops (shared c) no_locals).1
                 = run_notifications (handled ++ [n]) initial_state
      end;
  inv_dash_locals : ∀ i t cb ops l,
    dash c !! i = Some t → dash_running t = Some (cb, ops, l) →
    ∃ done, callback_section cb = done ++ ops
            ∧ l = (run_ops done (shared c) no_locals).2;
  inv_dash_snapshots : ∀ i t cb l,
    dash c !! i = Some t → (cb, l) ∈ dash_snapshots t →
    ∃ k, l = atomic_snapshot cb
               (run_notifications (take k ns) initial_state)
}.

(** ** Sample inputs *)

(** Tag [0x00], nine further header bytes, then 100, -50 and 200. *)
Definition waveform_packet : list byte :=
  [x00; x11; x22; x33; x44; x55; x66; x77; x88; x99;
   x64; x00; x00; xce; xff; xff; xc8; x00; x00].

(** The same samples behind another header (another device timestamp). *)
Definition waveform_packet_b : list byte :=
  [x00; xa0; xa1; xa2; xa3; xa4; xa5; xa6; xa7; xa8;
   x64; x00; x00; xce; xff; xff; xc8; x00; x00].

(** One complete sample, then a sample cut after two bytes. *)
Definition truncated_packet : list byte :=
  [x00; x11; x22; x33; x44; x55; x66; x77; x88; x99;
   x64; x00; x00; xce; xff].

Definition session_of_three : State :=
  {| ecg_session_data := [100; -50; 200];
     ecg_session_time := [Qmake 0 100; Qmake 1 100; Qmake 2 100];
     sample_counter := 3;
     current_ble_hr := Some 72;
     hr_log := [(5000000, 72)] |}.

(** 1001 samples, one more than the display window holds. *)
Definition long_data : list Z := Z.of_nat <$> seq 0 1001.
Definition long_times : list Q := times_from 0 1001.

(** One waveform packet and one heart-rate notification arrive while a
    callback thread refreshes the graph. *)
Definition two_notifications : list notification :=
  [PmdData waveform_packet; HeartRateMeasurement 5000123 [x00; x48]].

Definition graph_snapshot : Locals :=
  {| data_copy := [100; -50; 200];
     times_copy := [Qmake 0 100; Qmake 1 100; Qmake 2 100];
     ble_hr_copy := None;
     hr_log_copy := [] |}.

(** The packet is in, the snapshot is taken, the heart rate is pending. *)
Definition config_after_snapshot : config :=
  {| shared := mkState [100; -50; 200]
                 [Qmake 0 100; Qmake 1 100; Qmake 2 100] 3 None [];
     data_lock := None;
     ble_pending := [HeartRateMeasurement 5000123 [x00; x48]];
     ble_running := None;
     dash := [mkDash None [(UpdateGraph, graph_snapshot)]] |}.

(** What the export reads once both notifications are in. *)
Definition export_snapshot : Locals :=
  {| data_copy := [100; -50; 200];
     times_copy := [Qmake 0 100; Qmake 1 100; Qmake 2 100];
     ble_hr_copy := None;
     hr_log_copy := [(5000000, 72)] |}.

(** Both notifications are handled and a callback thread has run the
    three statements of the export block; it still holds the lock. *)
Definition config_at_export_release : config :=
  {| shared := session_of_three;
     data_lock := Some (DashThread 0);
     ble_pending := [];
     ble_running := None;
     dash := [mkDash (Some (GenerateCombinedCsv, [], export_snapshot)) []] |}.

(** ** What a notification stream leaves in the session *)

(** The number of samples a payload carries. *)
Definition samples_in (payload : list byte) : nat :=
  match payload with
  | [] => 0
  | tag :: _ =>
      if byte_val tag =? 0 then ((length payload - 10) / 3)%nat else 0%nat
  end.

(** The amplitudes of the waveform packets of a stream, in order. *)
Definition waveform_of (ns : list notification) : list Z :=
  ns ≫= (λ n, match n with
              | PmdData data => amplitudes_of_payload data
              | HeartRateMeasurement _ _ => []
              end).

(** The log entries of the heart-rate notifications of a stream that
    parse, in order. *)
Definition heart_rates_of (ns : list notification) : list (datetime * Z) :=
  ns ≫= (λ n, match n with
              | PmdData _ => []
              | HeartRateMeasurement now data =>
                  match parse_heart_rate_measurement data with
                  | Returned hr => [(strftime_seconds now, hr)]
                  | _ => []
                  end
              end).

#[local] Instance string_eq_dec : EqDecision string := string_dec.

(** Whoever holds [data_lock] is inside a block. *)
Definition lock_owner_runs (c : config) : Prop :=
  match data_lock c with
  | None => True
  | Some BleThread => ble_running c ≠ None
  | Some (DashThread i) =>
      ∃ t, dash c !! i = Some t ∧ dash_running t ≠ None
  end.

(** A callback thread has copied the samples and is about to copy the
    times, while the first packet is in and the heart rate is pending. *)
Definition config_mid_callback : config :=
  {| shared := mkState [100; -50; 200]
                 [Qmake 0 100; Qmake 1 100; Qmake 2 100] 3 None [];
     data_lock := Some (DashThread 0);
     ble_pending := [HeartRateMeasurement 5000123 [x00; x48]];
     ble_running := None;
     dash := [mkDash (Some (UpdateGraph, [CopyTime; ReadBleHr],
                            mkLocals [100; -50; 200] [] None []))
                     []] |}.

(** The same, one statement later: the times are copied too. *)
Definition config_mid_callback_next : config :=
  {| shared := mkState [100; -50; 200]
                 [Qmake 0 100; Qmake 1 100; Qmake 2 100] 3 None [];
     data_lock := Some (DashThread 0);
     ble_pending := [HeartRateMeasurement 5000123 [x00; x48]];
     ble_running := None;
     dash := [mkDash (Some (UpdateGraph, [ReadBleHr],
                            mkLocals [100; -50; 200]
                              [Qmake 0 100; Qmake 1 100; Qmake 2 100]
                              None []))
                     []] |}.

(** ** health-rate-temp.py: the handler of the ten-second recording

    The earlier script keeps two lists only and stamps each sample with
    the device timestamp of its packet. *)

Module HealthRateTemp.

Record State : Type := mkState {
  ecg_session_data : list Z;
  ecg_session_time : list Z
}.

Definition initial_state : State :=
  {| ecg_session_data := []; ecg_session_time := [] |}.

(** lines 44-48 *)
Definition convert_array_to_signed_int
    (data : list byte) (offset length : Z) : Z :=
  int_from_bytes_little true (slice data offset (offset + length)).

(** lines 50-54 *)
Definition convert_to_unsigned_long
    (data : list byte) (offset length : Z) : Z :=
  int_from_bytes_little false (slice data offset (offset + length)).

(** lines 35-41 *)
Fixpoint ecg_loop (fuel : nat) (samples : list byte) (timestamp : Z)
    (offset : Z) (st : State) : outcome State :=
  if offset + step <=? len samples then
    match fuel with
    | O => OutOfFuel
    | S fuel' =>
        let ecg_value := convert_array_to_signed_int samples offset step in
        let offset := offset + step in
        ecg_loop fuel' samples timestamp offset
          {| ecg_session_data := ecg_session_data st ++ [ecg_value];
             ecg_session_time := ecg_session_time st ++ [timestamp] |}
    end
  else Returned st.

(** lines 20-42 *)
Definition pmd_data_handler (data : list byte) (st : State) : outcome State :=
  if len data =? 0 then Returned st
  else
    b0 ← getitem data 0;
    if byte_val b0 =? 0 then
      let timestamp := convert_to_unsigned_long data 1 8 in
      let samples := slice_from data 10 in
      ecg_loop (List.length samples) samples timestamp 0 st
    else Returned st.

Definition delivers (st st' : State) : Prop :=
  ∃ data, pmd_data_handler data st = Returned st'.

Definition reachable (st : State) : Prop := rtc delivers initial_state st.

End HealthRateTemp.

(** [waveform_packet] as the recording script stores it: its three
    samples, each with the timestamp 0x8877665544332211 of the header. *)
Definition temp_session_of_three : HealthRateTemp.State :=
  {| HealthRateTemp.ecg_session_data := [100; -50; 200];
     HealthRateTemp.ecg_session_time :=
       [9833440827789222417; 9833440827789222417; 9833440827789222417] |}.

(** One snapshot is not newer than another: what it holds of the
    samples and of the times is a prefix of what the other holds. *)
Definition not_newer (s1 s2 : callback * Locals) : Prop :=
  data_copy s1.2 `prefix_of` data_copy s2.2
  ∧ times_copy s1.2 `prefix_of` times_copy s2.2.

(** The snapshots of every callback thread are in the order of their
    age, and none is ahead of the globals. *)
Definition snapshots_monotone (c : config) : Prop :=
  ∀ i t, dash c !! i = Some t →
    StronglySorted not_newer (dash_snapshots t)
    ∧ Forall (λ s : callback * Locals,
                data_copy s.2 `prefix_of` ecg_session_data (shared c)
                ∧ times_copy s.2 `prefix_of` ecg_session_time (shared c))
             (dash_snapshots t).

(** Two waveform packets, and the graph refreshed after each. *)
Definition two_packets : list notification :=
  [PmdData waveform_packet; PmdData waveform_packet_b].

Definition second_graph_snapshot : Locals :=
  {| data_copy := [100; -50; 200; 100; -50; 200];
     times_copy := [Qmake 0 100; Qmake 1 100; Qmake 2 100;
                    Qmake 3 100; Qmake 4 100; Qmake 5 100];
     ble_hr_copy := None;
     hr_log_copy := [] |}.

Definition config_after_two_refreshes : config :=
  {| shared := mkState [100; -50; 200; 100; -50; 200]
                 [Qmake 0 100; Qmake 1 100; Qmake 2 100;
                  Qmake 3 100; Qmake 4 100; Qmake 5 100] 6 None [];
     data_lock := None;
     ble_pending := [];
     ble_running := None;
     dash := [mkDash None [(UpdateGraph, graph_snapshot);
                           (UpdateGraph, second_graph_snapshot)]] |}.

(** * Properties *)

(** ** Bytes, slices and integers *)

Lemma byte_val_range b : 0 ≤ byte_val b < 256.
Proof.
  unfold byte_val. pose proof (Byte.to_N_bounded b) as Hb. lia.
Qed.

Lemma bind_returned {A B} (f : A → outcome B) a : Returned a ≫= f = f a.
Proof. reflexivity. Qed.

Lemma getitem_0 {A} (x : A) l : getitem (x :: l) 0 = Returned x.
Proof. reflexivity. Qed.

Lemma len_nonneg {A} (l : list A) : 0 ≤ len l.
Proof. unfold len. lia. Qed.

Lemma groups3_short bs : (length bs < 3)%nat → groups3 bs = [].
Proof.
  destruct bs as [|b0 [|b1 [|b2 rest]]]; simpl; intros; try reflexivity; lia.
Qed.

Lemma drop_three (samples : list byte) (offset : Z) :
  0 ≤ offset → offset + step ≤ len samples →
  ∃ b0 b1 b2,
    drop (Z.to_nat offset) samples
    = b0 :: b1 :: b2 :: drop (Z.to_nat (offset + step)) samples.
Proof.
  unfold step, len. intros Hoff Hle.
  replace (Z.to_nat (offset + 3)) with (Z.to_nat offset + 3)%nat by lia.
  rewrite <- drop_drop.
  pose proof (length_drop samples (Z.to_nat offset)) as Hlen.
  destruct (drop (Z.to_nat offset) samples) as [|b0 [|b1 [|b2 rest]]];
    simpl in Hlen; try lia.
  exists b0, b1, b2. reflexivity.
Qed.

Lemma slice_three (samples : list byte) (offset : Z) b0 b1 b2 rest :
  0 ≤ offset →
  drop (Z.to_nat offset) samples = b0 :: b1 :: b2 :: rest →
  slice samples offset (offset + step) = [b0; b1; b2].
Proof.
  intros Hoff Hdrop.
  pose proof (length_drop samples (Z.to_nat offset)) as Hlen.
  rewrite Hdrop in Hlen. simpl in Hlen.
  unfold slice, clamp, step, len.
  destruct (Z.ltb_spec offset 0); [lia|].
  destruct (Z.ltb_spec (offset + 3) 0); [lia|].
  rewrite !Z.min_l by lia.
  replace (Z.to_nat (offset + 3 - offset)) with 3%nat by lia.
  rewrite Hdrop. reflexivity.
Qed.

(** On three bytes, [int.from_bytes(..., signed=True)] is the signed
    24-bit value. *)
Lemma int_from_bytes_three b0 b1 b2 :
  int_from_bytes_little true [b0; b1; b2] = sint24_le (b0, b1, b2).
Proof.
  unfold int_from_bytes_little, sint24_le, len. cbn [le_unsigned length andb].
  pose proof (byte_val_range b0). pose proof (byte_val_range b1).
  pose proof (byte_val_range b2).
  set (u := byte_val b0 + 256 * byte_val b1 + 65536 * byte_val b2).
  replace (byte_val b0 + 256 * (byte_val b1 + 256 * (byte_val b2 + 256 * 0)))
    with u by (unfold u; lia).
  assert (Hu : 0 ≤ u < 16777216) by (unfold u; lia).
  change (8 * Z.of_nat 3 - 1) with 23. change (8 * Z.of_nat 3) with 24.
  change (2 ^ 24) with 16777216.
  destruct (Z.leb_spec 8388608 u) as [Hge|Hlt].
  - assert (Z.testbit u 23 = true) as ->; [|reflexivity].
    apply Z.testbit_true; [lia|]. change (2 ^ 23) with 8388608.
    assert (u / 8388608 = 1) as ->
      by (symmetry; apply Z.div_unique with (r := u - 8388608); lia).
    reflexivity.
  - assert (Z.testbit u 23 = false) as ->; [|reflexivity].
    apply Z.testbit_false; [lia|]. change (2 ^ 23) with 8388608.
    rewrite Z.div_small by lia. reflexivity.
Qed.

(** ** The loop of pmd_data_handler *)

(** With fuel for every remaining byte the loop never runs dry, and it
    appends the samples of the complete groups from [offset] on. *)
Lemma ecg_loop_spec fuel (samples : list byte) offset st :
  0 ≤ offset →
  (length samples ≤ fuel + Z.to_nat offset)%nat →
  ecg_loop fuel samples offset st
  = Returned
      (append_waveform
         (sint24_le <$> groups3 (drop (Z.to_nat offset) samples)) st).
Proof.
  revert offset st.
  induction fuel as [|fuel IH]; intros offset st Hoff Hfuel;
    cbn [ecg_loop];
    destruct (Z.leb_spec (offset + step) (len samples)) as [Hle|Hgt].
  - unfold step, len in Hle. lia.
  - rewrite groups3_short; [reflexivity|].
    rewrite length_drop. unfold step, len in Hgt. lia.
  - destruct (drop_three samples offset Hoff Hle) as (b0 & b1 & b2 & Hdrop).
    rewrite (slice_three _ _ _ _ _ _ Hoff Hdrop), int_from_bytes_three.
    rewrite IH; [|unfold step; lia|unfold step; lia].
    rewrite Hdrop. reflexivity.
  - rewrite groups3_short; [reflexivity|].
    rewrite length_drop. unfold step, len in Hgt. lia.
Qed.

Lemma slice_from_10 (data : list byte) : slice_from data 10 = drop 10 data.
Proof.
  unfold slice_from, clamp. change (10 <? 0) with false. cbv iota.
  destruct (Z.min_spec 10 (len data)) as [[_ ->]|[Hle ->]]; [reflexivity|].
  unfold len in *. rewrite Nat2Z.id.
  rewrite !drop_ge by lia. reflexivity.
Qed.

(** pmd_data_handler always returns, and what it does to the session is
    to append the amplitudes of the payload. *)
Lemma pmd_data_handler_spec data st :
  pmd_data_handler data st
  = Returned (append_waveform (amplitudes_of_payload data) st).
Proof.
  unfold pmd_data_handler, amplitudes_of_payload.
  destruct data as [|tag rest]; [reflexivity|].
  rewrite bool_decide_eq_false_2 by discriminate.
  rewrite getitem_0, bind_returned.
  destruct (byte_val tag =? 0); [|reflexivity].
  cbv zeta. rewrite slice_from_10.
  rewrite ecg_loop_spec by (simpl; lia).
  reflexivity.
Qed.

(** ** What append_waveform does to each global *)

Lemma times_from_S c n :
  times_from c (S n) = truediv c SAMPLING_RATE :: times_from (c + 1) n.
Proof.
  unfold times_from. cbn [seq fmap list_fmap].
  rewrite Z.add_0_r. f_equal.
  rewrite <- fmap_S_seq, <- list_fmap_compose.
  apply list_fmap_ext. intros _ i _. simpl. f_equal. lia.
Qed.

Lemma append_waveform_fields amplitudes st :
  ecg_session_data (append_waveform amplitudes st)
    = ecg_session_data st ++ amplitudes
  ∧ ecg_session_time (append_waveform amplitudes st)
    = ecg_session_time st ++ times_from (sample_counter st) (length amplitudes)
  ∧ sample_counter (append_waveform amplitudes st)
    = sample_counter st + len amplitudes
  ∧ current_ble_hr (append_waveform amplitudes st) = current_ble_hr st
  ∧ hr_log (append_waveform amplitudes st) = hr_log st.
Proof.
  revert st. unfold append_waveform.
  induction amplitudes as [|v amplitudes IH]; intros st.
  - simpl. rewrite !app_nil_r. unfold len. simpl. repeat split; lia.
  - cbn [foldl length]. destruct (IH (append_sample v st)) as (Hd & Ht & Hc & Hh & Hl).
    rewrite Hd, Ht, Hc, Hh, Hl, times_from_S. cbn [append_sample ecg_session_data
      ecg_session_time sample_counter current_ble_hr hr_log].
    rewrite <- !app_assoc. unfold len. cbn [length app].
    repeat split; lia.
Qed.

Lemma groups3_ungroup (bs : list byte) :
  ∃ rest, bs = ungroup3 (groups3 bs) ++ rest ∧ (length rest < 3)%nat.
Proof.
  remember (length bs) as n eqn:Hn. revert bs Hn.
  induction n as [n IH] using lt_wf_ind. intros bs Hn.
  destruct bs as [|b0 [|b1 [|b2 rest]]].
  - exists []. simpl. split; [reflexivity|lia].
  - exists [b0]. simpl. split; [reflexivity|lia].
  - exists [b0; b1]. simpl. split; [reflexivity|lia].
  - destruct (IH (length rest)) with (bs := rest) as (r & Hr & Hlen);
      [simpl in Hn; lia|reflexivity|].
    exists r. split; [|exact Hlen].
    cbn [groups3]. unfold ungroup3 in *. cbn [mbind list_bind app].
    simpl. rewrite <- Hr. reflexivity.
Qed.

(** ** Waveform decoding *)

(** C1: on every payload the handler returns, and the amplitudes it
    stores are those of the payload: none for an empty payload or a tag
    other than 0x00, otherwise the signed little-endian value of each
    complete 3-byte group of [data[10:]], in order, the incomplete tail
    dropped. The packet carrying 100, -50 and 200 behind any header
    stores exactly these three. *)
Theorem C1_waveform_decoding :
  (∀ data st, ∃ st',
      pmd_data_handler data st = Returned st'
      ∧ ecg_session_data st'
        = ecg_session_data st ++ amplitudes_of_payload data)
  ∧ (∀ bs : list byte, ∃ rest,
      bs = ungroup3 (groups3 bs) ++ rest ∧ (length rest < 3)%nat)
  ∧ (∀ (h1 h2 h3 h4 h5 h6 h7 h8 h9 : byte) st, ∃ st',
      pmd_data_handler
        [x00; h1; h2; h3; h4; h5; h6; h7; h8; h9;
         x64; x00; x00; xce; xff; xff; xc8; x00; x00] st
      = Returned st'
      ∧ ecg_session_data st' = ecg_session_data st ++ [100; -50; 200]).
Proof.
  split; [|split].
  - intros data st. eexists. split; [apply pmd_data_handler_spec|].
    apply append_waveform_fields.
  - apply groups3_ungroup.
  - intros h1 h2 h3 h4 h5 h6 h7 h8 h9 st. eexists.
    split; [apply pmd_data_handler_spec|].
    destruct (append_waveform_fields
      (amplitudes_of_payload
         [x00; h1; h2; h3; h4; h5; h6; h7; h8; h9;
          x64; x00; x00; xce; xff; xff; xc8; x00; x00]) st) as [-> _].
    reflexivity.
Qed.

(** C4, as the code has it: a truncated payload is not an error. The
    handler returns on it; the complete groups it holds are stored and
    the cut tail is dropped; a payload too short to hold one sample
    leaves the session as it was. *)
Theorem C4_truncated_payload_returns data st :
  truncated data = true →
  ∃ st',
    pmd_data_handler data st = Returned st'
    ∧ ecg_session_data st' = ecg_session_data st ++ amplitudes_of_payload data
    ∧ ((length data < 13)%nat → st' = st).
Proof.
  intros _. eexists. split; [apply pmd_data_handler_spec|].
  split; [apply append_waveform_fields|].
  intros Hshort. unfold amplitudes_of_payload.
  destruct data as [|tag rest]; [reflexivity|].
  destruct (byte_val tag =? 0); [|reflexivity].
  rewrite groups3_short; [reflexivity|].
  rewrite length_drop. lia.
Qed.

Lemma C4_truncated_payload_returns_witness :
  truncated truncated_packet = true
  ∧ ∃ st',
      pmd_data_handler truncated_packet initial_state = Returned st'
      ∧ ecg_session_data st'
        = ecg_session_data initial_state
          ++ amplitudes_of_payload truncated_packet
      ∧ ((length truncated_packet < 13)%nat → st' = initial_state).
Proof.
  split; [reflexivity|].
  apply (C4_truncated_payload_returns truncated_packet initial_state).
  reflexivity.
Defined.

(** C4 as stated fails: a packet whose last sample is cut short is
    truncated, yet the handler returns and the session has changed. *)
Lemma C4_counterexample :
  truncated truncated_packet = true
  ∧ pmd_data_handler truncated_packet initial_state
    = Returned (append_sample 100 initial_state)
  ∧ append_sample 100 initial_state ≠ initial_state.
Proof.
  split; [reflexivity|]. split; [vm_compute; reflexivity|].
  discriminate.
Qed.

(** C10: the handler reads byte 0 and [data[10:]] only. Two payloads
    that agree there take every session to the same session: same
    amplitudes, same relative times, same counter. *)
Theorem C10_header_noninterference (d1 d2 : list byte) :
  d1 !! 0%nat = d2 !! 0%nat →
  slice_from d1 10 = slice_from d2 10 →
  ∀ st, pmd_data_handler d1 st = pmd_data_handler d2 st.
Proof.
  rewrite !slice_from_10. intros Htag Hsamples st.
  rewrite !pmd_data_handler_spec. do 2 f_equal.
  unfold amplitudes_of_payload.
  destruct d1 as [|t1 r1], d2 as [|t2 r2]; try discriminate; [reflexivity|].
  injection Htag as ->. rewrite Hsamples. reflexivity.
Qed.

Lemma C10_header_noninterference_witness :
  waveform_packet !! 0%nat = waveform_packet_b !! 0%nat
  ∧ slice_from waveform_packet 10 = slice_from waveform_packet_b 10
  ∧ ∀ st, pmd_data_handler waveform_packet st
          = pmd_data_handler waveform_packet_b st.
Proof.
  split; [reflexivity|]. split; [reflexivity|].
  apply (C10_header_noninterference waveform_packet waveform_packet_b);
    reflexivity.
Defined.

(** ** The session store *)

Lemma times_from_app c n m :
  times_from c (n + m) = times_from c n ++ times_from (c + Z.of_nat n) m.
Proof.
  revert c. induction n as [|n IH]; intros c.
  - simpl. rewrite Z.add_0_r. reflexivity.
  - cbn [Nat.add]. rewrite !times_from_S, IH. cbn [app].
    do 3 f_equal. lia.
Qed.

Lemma times_from_lookup c n i :
  (i < n)%nat →
  times_from c n !! i = Some (truediv (c + Z.of_nat i) SAMPLING_RATE).
Proof.
  intros Hi. unfold times_from.
  rewrite list_lookup_fmap, lookup_seq_lt by exact Hi. reflexivity.
Qed.

Lemma times_from_length c n : length (times_from c n) = n.
Proof. unfold times_from. rewrite length_fmap, length_seq. reflexivity. Qed.

Lemma session_invariant_initial : session_invariant initial_state.
Proof. split; reflexivity. Qed.

Lemma heart_rate_notification_handler_returned now data st st' :
  heart_rate_notification_handler now data st = Returned st' →
  ecg_session_data st' = ecg_session_data st
  ∧ ecg_session_time st' = ecg_session_time st
  ∧ sample_counter st' = sample_counter st
  ∧ ∃ hr, parse_heart_rate_measurement data = Returned hr
          ∧ current_ble_hr st' = Some hr
          ∧ hr_log st' = hr_log st ++ [(strftime_seconds now, hr)].
Proof.
  unfold heart_rate_notification_handler.
  destruct (parse_heart_rate_measurement data) as [hr|e|]; try discriminate.
  rewrite bind_returned. intros [= <-]. simpl. eauto 10.
Qed.

Lemma session_invariant_delivers st st' :
  session_invariant st → delivers st st' → session_invariant st'.
Proof.
  intros [Hc Ht] [[data|now data] Hn]; simpl in Hn.
  - rewrite pmd_data_handler_spec in Hn. injection Hn as <-.
    destruct (append_waveform_fields (amplitudes_of_payload data) st)
      as (Hd' & Ht' & Hc' & _).
    split.
    + rewrite Hc', Hd', Hc. unfold len. rewrite length_app. lia.
    + rewrite Ht', Hd', Ht, Hc, length_app, times_from_app. reflexivity.
  - apply heart_rate_notification_handler_returned in Hn
      as (Hd' & Ht' & Hc' & _).
    split; [rewrite Hc', Hd'; exact Hc|rewrite Ht', Hd'; exact Ht].
Qed.

Lemma session_invariant_reachable st : reachable st → session_invariant st.
Proof.
  unfold reachable.
  apply (rtc_ind_r session_invariant initial_state).
  - apply session_invariant_initial.
  - intros y z _ Hstep IH. eapply session_invariant_delivers; eassumption.
Qed.

Lemma delivers_extends st st' : delivers st st' → extends st st'.
Proof.
  intros [[data|now data] Hn]; simpl in Hn.
  - rewrite pmd_data_handler_spec in Hn. injection Hn as <-.
    destruct (append_waveform_fields (amplitudes_of_payload data) st)
      as (Hd' & Ht' & _ & _ & Hl').
    unfold extends. rewrite Hd', Ht', Hl'.
    repeat split; try apply prefix_app_r; reflexivity.
  - apply heart_rate_notification_handler_returned in Hn
      as (Hd' & Ht' & _ & hr & _ & _ & Hl').
    unfold extends. rewrite Hd', Ht', Hl'.
    repeat split; try apply prefix_app_r; reflexivity.
Qed.

Lemma rtc_delivers_extends st st' : rtc delivers st st' → extends st st'.
Proof.
  induction 1 as [st|st st' st'' Hstep _ IH].
  - repeat split; reflexivity.
  - apply delivers_extends in Hstep.
    destruct Hstep as (Hd & Ht & Hl), IH as (Hd' & Ht' & Hl').
    repeat split; etrans; eassumption.
Qed.

(** C2: in every session reached from the empty one by waveform and
    heart-rate notifications, [sample_counter] is the number of stored
    samples, every sample has its time, the time of sample [i] is
    [i / SAMPLING_RATE], and whatever the session stores later starts
    with what it stores now: nothing is cut off or moved. *)
Theorem C2_session_invariant st :
  reachable st →
  sample_counter st = len (ecg_session_data st)
  ∧ length (ecg_session_time st) = length (ecg_session_data st)
  ∧ (∀ i : nat, (i < length (ecg_session_data st))%nat →
       ecg_session_time st !! i = Some (truediv (Z.of_nat i) SAMPLING_RATE))
  ∧ (∀ st', rtc delivers st st' →
       ecg_session_data st `prefix_of` ecg_session_data st'
       ∧ ecg_session_time st `prefix_of` ecg_session_time st'
       ∧ hr_log st `prefix_of` hr_log st').
Proof.
  intros Hr. destruct (session_invariant_reachable st Hr) as [Hc Ht].
  split; [exact Hc|]. split; [rewrite Ht; apply times_from_length|].
  split.
  - intros i Hi. rewrite Ht, times_from_lookup by exact Hi. reflexivity.
  - intros st' Hst'. apply rtc_delivers_extends. exact Hst'.
Qed.

Lemma session_of_three_reachable : reachable session_of_three.
Proof.
  unfold reachable.
  eapply rtc_l; [exists (PmdData waveform_packet); vm_compute; reflexivity|].
  eapply rtc_l;
    [exists (HeartRateMeasurement 5000123 [x00; x48]); vm_compute; reflexivity|].
  apply rtc_refl.
Defined.

Lemma C2_session_invariant_witness :
  reachable session_of_three
  ∧ sample_counter session_of_three = len (ecg_session_data session_of_three)
  ∧ length (ecg_session_time session_of_three)
    = length (ecg_session_data session_of_three)
  ∧ (∀ i : nat, (i < length (ecg_session_data session_of_three))%nat →
       ecg_session_time session_of_three !! i
       = Some (truediv (Z.of_nat i) SAMPLING_RATE))
  ∧ (∀ st', rtc delivers session_of_three st' →
       ecg_session_data session_of_three `prefix_of` ecg_session_data st'
       ∧ ecg_session_time session_of_three `prefix_of` ecg_session_time st'
       ∧ hr_log session_of_three `prefix_of` hr_log st').
Proof.
  split; [exact session_of_three_reachable|].
  apply (C2_session_invariant session_of_three).
  exact session_of_three_reachable.
Defined.

(** ** Heart-rate parsing *)

Lemma land_1_testbit a :
  (Z.land a 1 =? 0) = negb (Z.testbit a 0).
Proof.
  change 1 with (Z.ones 1). rewrite Z.land_ones by lia.
  change (2 ^ 1) with 2. rewrite <- Z.bit0_mod.
  destruct (Z.testbit a 0); reflexivity.
Qed.

Lemma slice_1_3 {A} (x : A) (l : list A) : slice (x :: l) 1 3 = take 2 l.
Proof.
  destruct l as [|y [|z l]]; try reflexivity.
  unfold slice, clamp, len. cbn [length].
  change (1 <? 0) with false. change (3 <? 0) with false. cbv iota.
  rewrite !Z.min_l by lia. reflexivity.
Qed.

Lemma getitem_1 {A} (x y : A) l : getitem (x :: y :: l) 1 = Returned y.
Proof. reflexivity. Qed.

Lemma parse_heart_rate_measurement_cons b0 b1 rest :
  parse_heart_rate_measurement (b0 :: b1 :: rest)
  = Returned
      (if Z.testbit (byte_val b0) 0
       then match rest with
            | [] => byte_val b1
            | b2 :: _ => byte_val b1 + 256 * byte_val b2
            end
       else byte_val b1).
Proof.
  unfold parse_heart_rate_measurement.
  rewrite getitem_0, bind_returned, land_1_testbit.
  destruct (Z.testbit (byte_val b0) 0); cbn [negb].
  - rewrite slice_1_3. unfold int_from_bytes_little. cbn [andb].
    destruct rest as [|b2 rest]; simpl le_unsigned;
      unfold mret, outcome_ret; f_equal; lia.
  - rewrite getitem_1, bind_returned. reflexivity.
Qed.

(** C3, as the code has it: the parser raises (an [IndexError]) exactly
    on the empty payload and on a one-byte payload whose bit 0 is clear.
    A one-byte payload with bit 0 set parses to 0. From two bytes on it
    returns byte 1 when bit 0 is clear, and the little-endian value of
    [data[1:3]] when bit 0 is set: bytes 1-2 as a 16-bit value when there
    are three bytes or more, byte 1 alone when there are two. Both
    sample payloads parse to 72. *)
Theorem C3_parse_heart_rate_measurement :
  parse_heart_rate_measurement [] = Raised IndexError
  ∧ (∀ b0, parse_heart_rate_measurement [b0]
           = if Z.testbit (byte_val b0) 0 then Returned 0
             else Raised IndexError)
  ∧ (∀ b0 b1, parse_heart_rate_measurement [b0; b1] = Returned (byte_val b1))
  ∧ (∀ b0 b1 b2 rest,
       parse_heart_rate_measurement (b0 :: b1 :: b2 :: rest)
       = Returned (if Z.testbit (byte_val b0) 0
                   then byte_val b1 + 256 * byte_val b2
                   else byte_val b1))
  ∧ parse_heart_rate_measurement [x00; x48] = Returned 72
  ∧ parse_heart_rate_measurement [x01; x48; x00] = Returned 72.
Proof.
  split; [reflexivity|]. split; [|split; [|split; [|split; reflexivity]]].
  - intros b0. unfold parse_heart_rate_measurement.
    rewrite getitem_0, bind_returned, land_1_testbit.
    destruct (Z.testbit (byte_val b0) 0); reflexivity.
  - intros b0 b1. rewrite parse_heart_rate_measurement_cons.
    destruct (Z.testbit (byte_val b0) 0); reflexivity.
  - intros b0 b1 b2 rest. apply parse_heart_rate_measurement_cons.
Qed.

(** C3 as stated fails: the payload [0x01] has fewer than two bytes, and
    the parser returns 0 on it. *)
Lemma C3_counterexample :
  (length [x01] < 2)%nat ∧ parse_heart_rate_measurement [x01] = Returned 0.
Proof. split; [simpl; lia|reflexivity]. Qed.

(** ** The display window *)

Lemma slice_from_neg {A} (l : list A) (w : Z) :
  0 < w → w < len l →
  slice_from l (- w) = drop (length l - Z.to_nat w) l.
Proof.
  intros Hw Hlen. unfold slice_from, clamp.
  destruct (Z.ltb_spec (- w) 0); [|lia].
  f_equal. unfold len in *. lia.
Qed.

(** C7: the window holds [window_size] = 100 * 10 samples. When more
    are stored, the window is the last [window_size] samples and the
    last [window_size] times, cut at the same index, so that position
    [j] of both comes from position [k + j] of the inputs; otherwise
    both sequences are returned as they are. *)
Theorem C7_recent_window (data : list Z) (times : list Q) :
  length data = length times →
  window_size = SAMPLING_RATE * 10
  ∧ (window_size < len data →
       let k := (length data - Z.to_nat window_size)%nat in
       recent_window data times = (drop k data, drop k times)
       ∧ len (drop k data) = window_size
       ∧ len (drop k times) = window_size
       ∧ ∀ j : nat, drop k data !! j = data !! (k + j)%nat
                    ∧ drop k times !! j = times !! (k + j)%nat)
  ∧ (len data ≤ window_size → recent_window data times = (data, times)).
Proof.
  intros Hlen. split; [reflexivity|]. split.
  - intros Hlong k. unfold recent_window.
    destruct (Z.ltb_spec window_size (len data)); [|lia].
    assert (0 < window_size) by (unfold window_size, SAMPLING_RATE; lia).
    rewrite !slice_from_neg by (unfold len in *; lia).
    rewrite <- Hlen. fold k.
    split; [reflexivity|].
    unfold len in *. rewrite !length_drop, <- Hlen.
    split; [lia|]. split; [lia|].
    intros j. rewrite !lookup_drop. split; reflexivity.
  - intros Hshort. unfold recent_window.
    destruct (Z.ltb_spec window_size (len data)); [lia|reflexivity].
Qed.

Lemma C7_recent_window_witness :
  length long_data = length long_times
  ∧ window_size = SAMPLING_RATE * 10
  ∧ (window_size < len long_data →
       let k := (length long_data - Z.to_nat window_size)%nat in
       recent_window long_data long_times = (drop k long_data, drop k long_times)
       ∧ len (drop k long_data) = window_size
       ∧ len (drop k long_times) = window_size
       ∧ ∀ j : nat, drop k long_data !! j = long_data !! (k + j)%nat
                    ∧ drop k long_times !! j = long_times !! (k + j)%nat)
  ∧ (len long_data ≤ window_size →
       recent_window long_data long_times = (long_data, long_times)).
Proof.
  split; [vm_compute; reflexivity|].
  apply (C7_recent_window long_data long_times).
  vm_compute. reflexivity.
Defined.

(** ** Peak detection *)

(** C9: with no samples stored the refresh returns, the figure carries
    the empty line and no R-peak markers, and neither the standard
    deviation nor the peak search is consulted: the result is the same
    whatever they are. *)
Theorem C9_no_samples_no_peaks {float : Type}
    (np_std : list Z → float) (fmul : Q → float → float)
    (find_peaks : list Z → Q → float → list Z) (st : State) :
  ecg_session_data st = [] →
  ecg_session_time st = [] →
  ∃ fig,
    update_graph np_std fmul find_peaks st = Returned (fig, current_ble_hr st)
    ∧ fig = {| line_x := []; line_y := []; r_peaks := None |}
    ∧ peak_markers fig = [].
Proof.
  intros Hd Ht. eexists. unfold update_graph. rewrite Hd, Ht.
  split; [reflexivity|]. split; reflexivity.
Qed.

Lemma C9_no_samples_no_peaks_witness :
  ecg_session_data initial_state = []
  ∧ ecg_session_time initial_state = []
  ∧ ∃ fig,
      update_graph (λ _, 0) (λ _ x, x) (λ _ _ _, [0; 1; 2]) initial_state
      = Returned (fig, current_ble_hr initial_state)
      ∧ fig = {| line_x := []; line_y := []; r_peaks := None |}
      ∧ peak_markers fig = [].
Proof.
  split; [reflexivity|]. split; [reflexivity|].
  apply (C9_no_samples_no_peaks (λ _, 0) (λ _ x, x) (λ _ _ _, [0; 1; 2])
           initial_state); reflexivity.
Defined.

(** ** Sorting by key *)

Section list_sort.
Context {A : Type} (key : A → Z).

Lemma insert_by_perm x l : insert_by key x l ≡ₚ x :: l.
Proof.
  induction l as [|y l IH]; cbn [insert_by]; [reflexivity|].
  destruct (key x <=? key y); [reflexivity|].
  rewrite IH. apply Permutation_swap.
Qed.

Lemma list_sort_perm l : list_sort key l ≡ₚ l.
Proof.
  induction l as [|x l IH]; cbn [list_sort]; [reflexivity|].
  rewrite insert_by_perm, IH. reflexivity.
Qed.

Lemma insert_by_sorted x l :
  StronglySorted (key_le key) l → StronglySorted (key_le key) (insert_by key x l).
Proof.
  induction 1 as [|y l Hl IH Hy]; cbn [insert_by].
  - repeat constructor.
  - destruct (Z.leb_spec (key x) (key y)) as [Hle|Hgt].
    + constructor; [constructor; assumption|].
      constructor; [exact Hle|].
      eapply Forall_impl; [exact Hy|].
      intros z Hz. unfold key_le in *. lia.
    + constructor; [exact IH|].
      rewrite insert_by_perm. constructor; [unfold key_le; lia|exact Hy].
Qed.

Lemma list_sort_sorted l : StronglySorted (key_le key) (list_sort key l).
Proof.
  induction l as [|x l IH]; cbn [list_sort]; [constructor|].
  apply insert_by_sorted, IH.
Qed.

(** Insertion never moves an element past one with the same key. *)
Lemma insert_by_filter k x l :
  filter (λ y, key y = k) (insert_by key x l)
  = filter (λ y, key y = k) (x :: l).
Proof.
  induction l as [|y l IH]; cbn [insert_by]; [reflexivity|].
  destruct (Z.leb_spec (key x) (key y)) as [Hle|Hgt]; [reflexivity|].
  rewrite (filter_cons _ y), IH, !(filter_cons _ x), (filter_cons _ y).
  destruct (decide (key x = k)), (decide (key y = k));
    try reflexivity; lia.
Qed.

Lemma list_sort_stable k l :
  filter (λ y, key y = k) (list_sort key l) = filter (λ y, key y = k) l.
Proof.
  induction l as [|x l IH]; cbn [list_sort]; [reflexivity|].
  rewrite insert_by_filter, !filter_cons, IH. reflexivity.
Qed.

(** A list that is sorted by key is determined by its elements of each
    key, taken in order: two stable sorts of a list agree. *)
Lemma sorted_stable_unique l1 l2 :
  StronglySorted (key_le key) l1 → StronglySorted (key_le key) l2 →
  (∀ k, filter (λ y, key y = k) l1 = filter (λ y, key y = k) l2) →
  l1 = l2.
Proof.
  intros Hs1. revert l2.
  induction Hs1 as [|x l1 Hs1 IH Hx]; intros l2 Hs2 Hf.
  - destruct l2 as [|y l2]; [reflexivity|].
    specialize (Hf (key y)). rewrite filter_cons_True in Hf by reflexivity.
    discriminate.
  - destruct Hs2 as [|y l2 Hs2 Hy].
    { specialize (Hf (key x)). rewrite filter_cons_True in Hf by reflexivity.
      discriminate. }
    assert (key x = key y) as Hxy.
    { assert (x ∈ y :: l2) as Hin.
      { eapply (list_elem_of_filter (λ z, key z = key x)).
        rewrite <- Hf, filter_cons_True by reflexivity. left. }
      assert (y ∈ x :: l1) as Hin'.
      { eapply (list_elem_of_filter (λ z, key z = key y)).
        rewrite Hf, filter_cons_True by reflexivity. left. }
      rewrite Forall_forall in Hx, Hy.
      apply elem_of_cons in Hin as [->|Hin]; [reflexivity|].
      apply elem_of_cons in Hin' as [->|Hin']; [reflexivity|].
      apply Hy in Hin. apply Hx in Hin'. unfold key_le in *. lia. }
    pose proof (Hf (key x)) as Hhead.
    rewrite filter_cons_True in Hhead by reflexivity.
    rewrite filter_cons_True in Hhead by (symmetry; exact Hxy).
    injection Hhead as <- Htail. f_equal.
    apply IH; [exact Hs2|]. intros k.
    destruct (decide (key x = k)) as [<-|Hk]; [exact Htail|].
    specialize (Hf k). rewrite !filter_cons_False in Hf by exact Hk.
    exact Hf.
Qed.

Lemma stable_sort_unique l s :
  StronglySorted (key_le key) s →
  (∀ k, filter (λ y, key y = k) s = filter (λ y, key y = k) l) →
  s = list_sort key l.
Proof.
  intros Hs Hf. apply sorted_stable_unique; [exact Hs|apply list_sort_sorted|].
  intros k. rewrite Hf, list_sort_stable. reflexivity.
Qed.
End list_sort.

(** ** The export *)

Lemma ecg_rows_zip_with start (times : list Q) (data : list Z) :
  ecg_row start <$> zip times data
  = zip_with (λ rel v, {| timestamp := start + timedelta_seconds rel;
                          source := "ECG"; value := v |}) times data.
Proof.
  revert data. induction times as [|t times IH]; intros [|v data];
    cbn [zip_with fmap list_fmap]; try reflexivity.
  f_equal. apply IH.
Qed.

Lemma hr_rows_fmap (log : list (datetime * Z)) :
  hr_row <$> log
  = (λ e : datetime * Z,
       {| timestamp := e.1; source := "Heart Rate"; value := e.2 |}) <$> log.
Proof. apply list_fmap_ext. intros _ [ts hr] _. reflexivity. Qed.

(** C5, as the code has it: when every sample has its time, the export
    returns the rows of the samples and of the heart-rate log, one row
    each: a sample's row at [session_start_time] plus its relative time
    with source ECG, a log entry's row at its own instant with source
    Heart Rate (with a space). The rows come out in ascending order of
    timestamp, and the rows of one timestamp keep the order they were
    collected in: the ECG rows first, then the heart-rate rows. *)
Theorem C5_export_rows (session_start_time : datetime) (st : State) :
  length (ecg_session_time st) = length (ecg_session_data st) →
  let ecg :=
    zip_with (λ rel v, {| timestamp := session_start_time + timedelta_seconds rel;
                          source := "ECG"; value := v |})
             (ecg_session_time st) (ecg_session_data st) in
  let hr :=
    (λ e : datetime * Z,
       {| timestamp := e.1; source := "Heart Rate"; value := e.2 |})
    <$> hr_log st in
  ∃ rows,
    generate_combined_csv session_start_time st = Returned rows
    ∧ length ecg = length (ecg_session_data st)
    ∧ length hr = length (hr_log st)
    ∧ rows ≡ₚ ecg ++ hr
    ∧ StronglySorted (λ r1 r2, timestamp r1 ≤ timestamp r2) rows
    ∧ ∀ t, filter (λ r, timestamp r = t) rows
           = filter (λ r, timestamp r = t) ecg
             ++ filter (λ r, timestamp r = t) hr.
Proof.
  intros Hlen ecg hr. eexists. split; [reflexivity|].
  rewrite ecg_rows_zip_with, hr_rows_fmap. fold ecg hr.
  split; [unfold ecg; rewrite length_zip_with; lia|].
  split; [unfold hr; apply length_fmap|].
  split; [apply list_sort_perm|].
  split; [apply (list_sort_sorted (λ row, to_datetime (timestamp row)))|].
  intros t. rewrite <- filter_app.
  apply (list_sort_stable (λ row, to_datetime (timestamp row))).
Qed.

Lemma C5_export_rows_witness :
  length (ecg_session_time session_of_three)
  = length (ecg_session_data session_of_three)
  ∧ ∃ rows,
      generate_combined_csv 0 session_of_three = Returned rows
      ∧ rows = [ {| timestamp := 0; source := "ECG"; value := 100 |};
                 {| timestamp := 10000; source := "ECG"; value := -50 |};
                 {| timestamp := 20000; source := "ECG"; value := 200 |};
                 {| timestamp := 5000000; source := "Heart Rate"; value := 72 |} ]
      ∧ StronglySorted (λ r1 r2, timestamp r1 ≤ timestamp r2) rows.
Proof.
  split; [reflexivity|].
  destruct (C5_export_rows 0 session_of_three eq_refl)
    as (rows & Hrows & _ & _ & _ & Hsorted & _).
  exists rows. split; [exact Hrows|]. split; [|exact Hsorted].
  vm_compute in Hrows. injection Hrows as <-. reflexivity.
Defined.

(** C5 as stated fails on the source label: the row exported for a
    heart-rate event carries "Heart Rate", and no exported row carries
    "HeartRate". *)
Lemma C5_counterexample :
  ∃ rows,
    generate_combined_csv 0 session_of_three = Returned rows
    ∧ {| timestamp := 5000000; source := "Heart Rate"; value := 72 |} ∈ rows
    ∧ Forall (λ r, source r ≠ "HeartRate"%string) rows.
Proof.
  eexists. split; [vm_compute; reflexivity|]. split.
  - do 3 right. left.
  - repeat constructor; discriminate.
Qed.

(** C6, as the code has it: a session with no samples and no heart-rate
    events is exported without any failure; the export returns and the
    row set is empty. *)
Theorem C6_empty_session_exports_no_rows (session_start_time : datetime)
    (st : State) :
  ecg_session_data st = [] →
  ecg_session_time st = [] →
  hr_log st = [] →
  generate_combined_csv session_start_time st = Returned [].
Proof.
  intros Hd Ht Hl. unfold generate_combined_csv. rewrite Hd, Ht, Hl.
  reflexivity.
Qed.

Lemma C6_empty_session_exports_no_rows_witness :
  ecg_session_data initial_state = []
  ∧ ecg_session_time initial_state = []
  ∧ hr_log initial_state = []
  ∧ generate_combined_csv 0 initial_state = Returned [].
Proof.
  repeat (split; [reflexivity|]).
  apply (C6_empty_session_exports_no_rows 0 initial_state); reflexivity.
Defined.

(** C6 as stated fails: the export of the empty session returns. *)
Lemma C6_counterexample :
  generate_combined_csv 0 initial_state = Returned []
  ∧ ∀ e, generate_combined_csv 0 initial_state ≠ Raised e.
Proof. split; [reflexivity|]. intros e. discriminate. Qed.

(** ** Blocks under data_lock *)

Lemma run_ops_cons o ops st l :
  run_ops (o :: ops) st l = run_ops ops (exec_op o st l).1 (exec_op o st l).2.
Proof. cbn [run_ops]. destruct (exec_op o st l). reflexivity. Qed.

Lemma run_ops_app ops1 ops2 st l :
  run_ops (ops1 ++ ops2) st l
  = run_ops ops2 (run_ops ops1 st l).1 (run_ops ops1 st l).2.
Proof.
  revert st l. induction ops1 as [|o ops1 IH]; intros st l; [reflexivity|].
  cbn [app]. rewrite !run_ops_cons. apply IH.
Qed.

(** What a statement does to the globals does not depend on the locals
    of the thread that runs it. *)
Lemma exec_op_globals o st l l' : (exec_op o st l).1 = (exec_op o st l').1.
Proof. destruct o; reflexivity. Qed.

Lemma run_ops_globals ops st l l' : (run_ops ops st l).1 = (run_ops ops st l').1.
Proof.
  revert st l l'. induction ops as [|o ops IH]; intros st l l'; [reflexivity|].
  rewrite !run_ops_cons, (exec_op_globals o st l l'). apply IH.
Qed.

Lemma exec_op_read_only o st l : read_only o → (exec_op o st l).1 = st.
Proof. destruct o; simpl; intros H; first [reflexivity|destruct H]. Qed.

Lemma run_ops_read_only ops st l :
  Forall read_only ops → (run_ops ops st l).1 = st.
Proof.
  intros H. revert st l. induction H as [|o ops Ho _ IH]; intros st l;
    [reflexivity|].
  rewrite run_ops_cons, IH. apply exec_op_read_only, Ho.
Qed.

Lemma callback_section_read_only cb : Forall read_only (callback_section cb).
Proof. destruct cb; repeat constructor. Qed.

(** The statements of the loop, run without interruption, are the loop
    of the handler. *)
Lemma ecg_loop_ops_run fuel samples offset st st' l :
  ecg_loop fuel samples offset st = Returned st' →
  run_ops (ecg_loop_ops fuel samples offset) st l = (st', l).
Proof.
  revert offset st. induction fuel as [|fuel IH]; intros offset st;
    cbn [ecg_loop ecg_loop_ops];
    destruct (offset + step <=? len samples); try discriminate.
  - intros [= <-]. reflexivity.
  - intros Hloop. apply IH in Hloop. exact Hloop.
  - intros [= <-]. reflexivity.
Qed.

Lemma handler_section_some n ops st l :
  handler_section n = Some ops → (run_ops ops st l).1 = after n st.
Proof.
  unfold after. destruct n as [data|now data]; cbn [handler_section deliver].
  - pose proof (pmd_data_handler_spec data st) as Hspec.
    unfold pmd_data_handler in *.
    destruct (bool_decide (data = [])); [discriminate|].
    destruct (getitem data 0) as [b0| |]; try discriminate.
    rewrite bind_returned in *.
    destruct (byte_val b0 =? 0); [|discriminate].
    intros [= <-]. cbv zeta in Hspec.
    rewrite (ecg_loop_ops_run _ _ _ _ _ l Hspec), Hspec. reflexivity.
  - unfold heart_rate_notification_handler.
    destruct (parse_heart_rate_measurement data) as [hr| |]; try discriminate.
    intros [= <-]. reflexivity.
Qed.

Lemma handler_section_none n st : handler_section n = None → after n st = st.
Proof.
  unfold after. destruct n as [data|now data]; cbn [handler_section deliver].
  - unfold pmd_data_handler.
    destruct (bool_decide (data = [])); [reflexivity|].
    destruct (getitem data 0) as [b0| |]; try reflexivity.
    rewrite bind_returned.
    destruct (byte_val b0 =? 0); [discriminate|reflexivity].
  - unfold heart_rate_notification_handler.
    destruct (parse_heart_rate_measurement data) as [hr| |];
      [discriminate|reflexivity|reflexivity].
Qed.

Lemma run_notifications_app ns1 ns2 st :
  run_notifications (ns1 ++ ns2) st
  = run_notifications ns2 (run_notifications ns1 st).
Proof. apply foldl_app. Qed.

Lemma run_notifications_snoc ns n st :
  run_notifications (ns ++ [n]) st = after n (run_notifications ns st).
Proof. apply run_notifications_app. Qed.

Lemma after_rtc n st : rtc delivers st (after n st).
Proof.
  unfold after. destruct (deliver n st) as [st'| |] eqn:Hn;
    try apply rtc_refl.
  apply rtc_once. exists n. exact Hn.
Qed.

Lemma run_notifications_rtc ns st : rtc delivers st (run_notifications ns st).
Proof.
  revert st. induction ns as [|n ns IH]; intros st; [apply rtc_refl|].
  simpl. etrans; [apply after_rtc|apply IH].
Qed.

Lemma insert_lookup_cases {A} (l : list A) (i j : nat) (x y z : A) :
  l !! i = Some z → <[i := x]> l !! j = Some y →
  (j = i ∧ y = x) ∨ (j ≠ i ∧ l !! j = Some y).
Proof.
  intros Hi Hj. destruct (decide (j = i)) as [->|Hne].
  - rewrite list_lookup_insert_eq in Hj by (eapply lookup_lt_Some; exact Hi).
    left. split; congruence.
  - rewrite list_lookup_insert_ne in Hj by congruence.
    right. split; assumption.
Qed.

(** ** The invariant of the interleaving *)

Lemma config_invariant_initial ns threads :
  config_invariant ns (initial_config ns threads).
Proof.
  constructor; cbn [initial_config shared data_lock ble_pending ble_running dash].
  - intros H. congruence.
  - intros i t Ht Hrun. apply lookup_replicate in Ht as [-> _].
    cbn in Hrun. congruence.
  - exists []. split; reflexivity.
  - intros i t cb ops l Ht Hrun. apply lookup_replicate in Ht as [-> _].
    discriminate.
  - intros i t cb l Ht Hin. apply lookup_replicate in Ht as [-> _].
    cbn in Hin. apply elem_of_nil in Hin. contradiction.
Qed.

Lemma config_invariant_step ns c c' :
  config_invariant ns c → thread_step c c' → config_invariant ns c'.
Proof.
  intros [H1 H2 [hd H3] H4 H5] Hstep.
  destruct Hstep as
    [c n ns' Hr Hp Hs | c n ns' ops Hl Hr Hp Hs | c o ops Hr | c Hr
    | c i t cb Hl Ht Hr | c i t cb o ops l Ht Hr | c i t cb l Ht Hr].
  - (* the BLE thread drops a notification before the lock *)
    rewrite Hr in H3. destruct H3 as [Hns Hsh].
    constructor; cbn [shared data_lock ble_pending ble_running dash];
      [congruence|exact H2| |exact H4|exact H5].
    exists (hd ++ [n]). split.
    + rewrite Hns, Hp, <- app_assoc. reflexivity.
    + rewrite run_notifications_snoc, <- Hsh, handler_section_none by exact Hs.
      reflexivity.
  - (* the BLE thread takes the lock *)
    rewrite Hr in H3. destruct H3 as [Hns Hsh].
    constructor; cbn [shared data_lock ble_pending ble_running dash];
      [reflexivity| | |exact H4|exact H5].
    + intros i t Ht Hrun. specialize (H2 i t Ht Hrun). congruence.
    + exists hd, n. split; [rewrite Hns, Hp; reflexivity|].
      rewrite (handler_section_some n ops _ _ Hs), run_notifications_snoc, Hsh.
      reflexivity.
  - (* the BLE thread runs one statement of its block *)
    assert (data_lock c = Some BleThread) as Hlock
      by (apply H1; rewrite Hr; discriminate).
    rewrite Hr in H3. destruct H3 as (n & Hns & Hrun).
    constructor; cbn [shared data_lock ble_pending ble_running dash];
      [intros _; exact Hlock|exact H2| | |exact H5].
    + exists hd, n. split; [exact Hns|].
      rewrite <- Hrun, run_ops_cons. apply run_ops_globals.
    + intros i t cb ops' l Ht Hrun'. exfalso.
      assert (data_lock c = Some (DashThread i))
        by (apply (H2 i t Ht); rewrite Hrun'; discriminate).
      congruence.
  - (* the BLE thread releases the lock *)
    assert (data_lock c = Some BleThread) as Hlock
      by (apply H1; rewrite Hr; discriminate).
    rewrite Hr in H3. destruct H3 as (n & Hns & Hrun).
    constructor; cbn [shared data_lock ble_pending ble_running dash];
      [congruence| | |exact H4|exact H5].
    + intros i t Ht Hrun'. specialize (H2 i t Ht Hrun'). congruence.
    + exists (hd ++ [n]). split; [|exact Hrun].
      rewrite Hns, <- app_assoc. reflexivity.
  - (* a callback takes the lock *)
    constructor; cbn [shared data_lock ble_pending ble_running dash].
    + intros Hb. specialize (H1 Hb). congruence.
    + intros j t' Ht' Hrun.
      destruct (insert_lookup_cases _ _ _ _ _ _ Ht Ht') as [[-> ->]|[Hne Hj]];
        [reflexivity|].
      specialize (H2 j t' Hj Hrun). congruence.
    + exists hd. exact H3.
    + intros j t' cb' ops l Ht' Hrun.
      destruct (insert_lookup_cases _ _ _ _ _ _ Ht Ht') as [[-> ->]|[Hne Hj]].
      * cbn in Hrun. injection Hrun as <- <- <-. exists []. split; reflexivity.
      * eapply H4; eassumption.
    + intros j t' cb' l Ht' Hin.
      destruct (insert_lookup_cases _ _ _ _ _ _ Ht Ht') as [[-> ->]|[Hne Hj]].
      * cbn in Hin. eapply H5; eassumption.
      * eapply H5; eassumption.
  - (* a callback runs one statement of its block *)
    destruct (H4 i t cb (o :: ops) l Ht Hr) as (done & Hsec & Hl).
    pose proof (callback_section_read_only cb) as Hro.
    rewrite Hsec in Hro. apply Forall_app in Hro as [Hdone Hro].
    apply Forall_cons in Hro as [Hro _].
    assert ((exec_op o (shared c) l).1 = shared c) as Hsh
      by (apply exec_op_read_only, Hro).
    constructor; cbn [shared data_lock ble_pending ble_running dash];
      rewrite ?Hsh; [exact H1| |exists hd; exact H3| |].
    + intros j t' Ht' Hrun.
      destruct (insert_lookup_cases _ _ _ _ _ _ Ht Ht') as [[-> ->]|[Hne Hj]].
      * apply (H2 i t Ht). rewrite Hr. discriminate.
      * exact (H2 j t' Hj Hrun).
    + intros j t' cb' ops' l' Ht' Hrun.
      destruct (insert_lookup_cases _ _ _ _ _ _ Ht Ht') as [[-> ->]|[Hne Hj]].
      * cbn in Hrun. injection Hrun as <- <- <-. exists (done ++ [o]).
        split; [rewrite Hsec, <- app_assoc; reflexivity|].
        rewrite run_ops_app, run_ops_read_only, <- Hl by exact Hdone.
        rewrite run_ops_cons. reflexivity.
      * eapply H4; eassumption.
    + intros j t' cb' l' Ht' Hin.
      destruct (insert_lookup_cases _ _ _ _ _ _ Ht Ht') as [[-> ->]|[Hne Hj]].
      * cbn in Hin. eapply H5; eassumption.
      * eapply H5; eassumption.
  - (* a callback releases the lock: its locals are a snapshot *)
    assert (data_lock c = Some (DashThread i)) as Hlock
      by (apply (H2 i t Ht); rewrite Hr; discriminate).
    assert (ble_running c = None) as Hb.
    { destruct (ble_running c) eqn:Hb; [|reflexivity].
      assert (data_lock c = Some BleThread) by (apply H1; discriminate).
      congruence. }
    constructor; cbn [shared data_lock ble_pending ble_running dash].
    + intros H. congruence.
    + intros j t' Ht' Hrun.
      destruct (insert_lookup_cases _ _ _ _ _ _ Ht Ht') as [[-> ->]|[Hne Hj]].
      * cbn in Hrun. congruence.
      * specialize (H2 j t' Hj Hrun). congruence.
    + exists hd. exact H3.
    + intros j t' cb' ops l' Ht' Hrun.
      destruct (insert_lookup_cases _ _ _ _ _ _ Ht Ht') as [[-> ->]|[Hne Hj]].
      * discriminate.
      * eapply H4; eassumption.
    + intros j t' cb' l' Ht' Hin.
      destruct (insert_lookup_cases _ _ _ _ _ _ Ht Ht') as [[-> ->]|[Hne Hj]];
        [|eapply H5; eassumption].
      cbn in Hin. apply elem_of_app in Hin as [Hin|Hin];
        [eapply H5; eassumption|].
      apply list_elem_of_singleton in Hin. injection Hin as -> ->.
      destruct (H4 i t cb [] l Ht Hr) as (done & Hsec & Hl).
      rewrite app_nil_r in Hsec. subst done.
      rewrite Hb in H3. destruct H3 as [Hns Hsh].
      exists (length hd). rewrite Hns, take_app_length.
      unfold atomic_snapshot. rewrite <- Hsh. exact Hl.
Qed.

Lemma config_invariant_reachable ns threads c :
  rtc thread_step (initial_config ns threads) c → config_invariant ns c.
Proof.
  apply (rtc_ind_r (config_invariant ns) (initial_config ns threads)).
  - apply config_invariant_initial.
  - intros c1 c2 _ Hstep IH. eapply config_invariant_step; eassumption.
Qed.

Lemma atomic_snapshot_fields cb st :
  data_copy (atomic_snapshot cb st) = ecg_session_data st
  ∧ times_copy (atomic_snapshot cb st) = ecg_session_time st
  ∧ (cb = UpdateGraph →
     ble_hr_copy (atomic_snapshot cb st) = current_ble_hr st)
  ∧ (cb = GenerateCombinedCsv →
     hr_log_copy (atomic_snapshot cb st) = hr_log st).
Proof. destruct cb; repeat split; intros; first [reflexivity|discriminate]. Qed.

(** C8: however the BLE thread and the callback threads interleave, at
    the moment a callback has run the last statement of its block and
    is about to release the lock, no handler is inside a block, the
    globals are the session after exactly the notifications the BLE
    thread has taken so far, each handled as a whole and in the order
    they arrived, and the locals of the callback are the snapshot of
    these very globals: the samples and the times as they are now,
    with the heart rate (update_graph) or the heart-rate log
    (generate_combined_csv), every sample with its time, and as many
    samples as the counter says. This is the snapshot the release
    records. *)
Theorem C8_snapshots_linearizable ns threads c i t cb l :
  rtc thread_step (initial_config ns threads) c →
  dash c !! i = Some t →
  dash_running t = Some (cb, [], l) →
  let k := (length ns - length (ble_pending c))%nat in
  ble_running c = None
  ∧ ns = take k ns ++ ble_pending c
  ∧ shared c = run_notifications (take k ns) initial_state
  ∧ l = atomic_snapshot cb (shared c)
  ∧ data_copy l = ecg_session_data (shared c)
  ∧ times_copy l = ecg_session_time (shared c)
  ∧ (cb = UpdateGraph → ble_hr_copy l = current_ble_hr (shared c))
  ∧ (cb = GenerateCombinedCsv → hr_log_copy l = hr_log (shared c))
  ∧ length (times_copy l) = length (data_copy l)
  ∧ len (data_copy l) = sample_counter (shared c)
  ∧ thread_step c
      (mkConfig (shared c) None (ble_pending c) (ble_running c)
         (<[i := mkDash None (dash_snapshots t ++ [(cb, l)])]> (dash c))).
Proof.
  intros Hreach Ht Hrun k.
  destruct (config_invariant_reachable ns threads c Hreach)
    as [H1 H2 [hd H3] H4 _].
  assert (data_lock c = Some (DashThread i)) as Hlock
    by (apply (H2 i t Ht); rewrite Hrun; discriminate).
  assert (ble_running c = None) as Hb.
  { destruct (ble_running c) eqn:Hb; [|reflexivity].
    assert (data_lock c = Some BleThread) by (apply H1; discriminate).
    congruence. }
  rewrite Hb in H3. destruct H3 as [Hns Hsh].
  assert (take k ns = hd) as Hk.
  { unfold k. rewrite Hns at 2. rewrite Hns at 1.
    rewrite length_app.
    replace (length hd + length (ble_pending c) - length (ble_pending c))%nat
      with (length hd) by lia.
    apply take_app_length. }
  destruct (H4 i t cb [] l Ht Hrun) as (done & Hsec & Hl).
  rewrite app_nil_r in Hsec. subst done.
  assert (l = atomic_snapshot cb (shared c)) as Hsnap by exact Hl.
  destruct (atomic_snapshot_fields cb (shared c)) as (Hd & Htm & Hhr & Hlog).
  assert (reachable (shared c)) as Hs
    by (rewrite Hsh; apply run_notifications_rtc).
  apply session_invariant_reachable in Hs as [Hc Htimes].
  split; [exact Hb|]. rewrite Hk.
  split; [exact Hns|]. split; [exact Hsh|]. split; [exact Hsnap|].
  rewrite Hsnap.
  split; [exact Hd|]. split; [exact Htm|].
  split; [exact Hhr|]. split; [exact Hlog|].
  rewrite Hd, Htm, Hc.
  split; [rewrite Htimes; apply times_from_length|].
  split; [reflexivity|].
  rewrite <- Hsnap. eapply dash_release; eassumption.
Qed.

Lemma config_at_export_release_reachable :
  rtc thread_step (initial_config two_notifications 1)
      config_at_export_release.
Proof.
  eapply rtc_l.
  { eapply ble_acquire; [reflexivity|reflexivity|reflexivity|].
    vm_compute. reflexivity. }
  do 9 (eapply rtc_l; [eapply ble_exec; reflexivity|vm_compute]).
  eapply rtc_l; [eapply ble_release; reflexivity|vm_compute].
  eapply rtc_l.
  { eapply ble_acquire; [reflexivity|reflexivity|reflexivity|].
    vm_compute. reflexivity. }
  do 2 (eapply rtc_l; [eapply ble_exec; reflexivity|vm_compute]).
  eapply rtc_l; [eapply ble_release; reflexivity|vm_compute].
  eapply rtc_l;
    [eapply (dash_acquire _ 0%nat _ GenerateCombinedCsv); reflexivity
    |vm_compute].
  do 3 (eapply rtc_l; [eapply (dash_exec _ 0%nat); reflexivity|vm_compute]).
  apply rtc_refl.
Qed.

Lemma C8_snapshots_linearizable_witness :
  rtc thread_step (initial_config two_notifications 1)
      config_at_export_release
  ∧ dash config_at_export_release !! 0%nat
    = Some (mkDash (Some (GenerateCombinedCsv, [], export_snapshot)) [])
  ∧ ble_running config_at_export_release = None
  ∧ two_notifications = take 2 two_notifications ++ []
  ∧ shared config_at_export_release
    = run_notifications (take 2 two_notifications) initial_state
  ∧ export_snapshot
    = atomic_snapshot GenerateCombinedCsv (shared config_at_export_release)
  ∧ data_copy export_snapshot = [100; -50; 200]
  ∧ hr_log_copy export_snapshot = [(5000000, 72)]
  ∧ len (data_copy export_snapshot)
    = sample_counter (shared config_at_export_release).
Proof.
  split; [exact config_at_export_release_reachable|].
  split; [reflexivity|].
  destruct (C8_snapshots_linearizable two_notifications 1
              config_at_export_release 0%nat
              (mkDash (Some (GenerateCombinedCsv, [], export_snapshot)) [])
              GenerateCombinedCsv export_snapshot
              config_at_export_release_reachable eq_refl eq_refl)
    as (Hb & Hns & Hsh & Hsnap & Hd & _ & _ & Hlog & _ & Hc & _).
  split; [exact Hb|]. split; [exact Hns|]. split; [exact Hsh|].
  split; [exact Hsnap|]. split; [exact Hd|].
  split; [exact (Hlog eq_refl)|exact Hc].
Defined.

Lemma config_after_snapshot_reachable :
  rtc thread_step (initial_config two_notifications 1) config_after_snapshot.
Proof.
  eapply rtc_l.
  { eapply ble_acquire; [reflexivity|reflexivity|reflexivity|].
    vm_compute. reflexivity. }
  do 9 (eapply rtc_l; [eapply ble_exec; reflexivity|vm_compute]).
  eapply rtc_l; [eapply ble_release; reflexivity|vm_compute].
  eapply rtc_l;
    [eapply (dash_acquire _ 0%nat _ UpdateGraph); reflexivity|vm_compute].
  do 3 (eapply rtc_l; [eapply (dash_exec _ 0%nat); reflexivity|vm_compute]).
  eapply rtc_l; [eapply (dash_release _ 0%nat); reflexivity|vm_compute].
  apply rtc_refl.
Qed.

(** Inside a block the globals do pass through states no snapshot may
    see: after the first statement of the loop one sample is stored
    and no time yet. *)
Lemma torn_inside_the_block :
  ∃ c,
    rtc thread_step (initial_config two_notifications 1) c
    ∧ data_lock c = Some BleThread
    ∧ length (ecg_session_data (shared c)) = 1%nat
    ∧ length (ecg_session_time (shared c)) = 0%nat.
Proof.
  eexists. split.
  - eapply rtc_l.
    { eapply ble_acquire; [reflexivity|reflexivity|reflexivity|].
      vm_compute. reflexivity. }
    eapply rtc_l; [eapply ble_exec; reflexivity|].
    apply rtc_refl.
  - vm_compute. repeat split; reflexivity.
Qed.

(** ** Sample runs *)

Example int_from_bytes_minus_50 :
  int_from_bytes_little true [xce; xff; xff] = -50.
Proof. reflexivity. Qed.

Example int_from_bytes_empty : int_from_bytes_little false [] = 0.
Proof. reflexivity. Qed.

Example slice_from_negative : slice_from [1; 2; 3; 4; 5] (-2) = [4; 5].
Proof. reflexivity. Qed.

Example pmd_data_handler_three_samples :
  pmd_data_handler waveform_packet initial_state
  = Returned (mkState [100; -50; 200]
                [Qmake 0 100; Qmake 1 100; Qmake 2 100] 3 None []).
Proof. vm_compute. reflexivity. Qed.

Example pmd_data_handler_foreign_tag :
  pmd_data_handler (x01 :: waveform_packet) session_of_three
  = Returned session_of_three.
Proof. reflexivity. Qed.

Example heart_rate_notification_handler_72 :
  heart_rate_notification_handler 5000123 [x01; x48; x00]
    (mkState [100; -50; 200] [Qmake 0 100; Qmake 1 100; Qmake 2 100] 3 None [])
  = Returned session_of_three.
Proof. vm_compute. reflexivity. Qed.

Example heart_rate_notification_handler_raises :
  heart_rate_notification_handler 5000123 [x00] session_of_three
  = Raised IndexError.
Proof. reflexivity. Qed.

(** With samples stored the peak search is consulted and its indices
    are looked up in both columns. *)
Example update_graph_marks_peaks :
  update_graph (λ _, 0) (λ _ x, x) (λ _ _ _, [1]) session_of_three
  = Returned ({| line_x := [Qmake 0 100; Qmake 1 100; Qmake 2 100];
                 line_y := [100; -50; 200];
                 r_peaks := Some ([Qmake 1 100], [-50]) |}, Some 72).
Proof. vm_compute. reflexivity. Qed.

Example update_graph_peak_out_of_range :
  update_graph (λ _, 0) (λ _ x, x) (λ _ _ _, [3]) session_of_three
  = Raised IndexError.
Proof. vm_compute. reflexivity. Qed.

(** Rows of one timestamp keep their order; the others are moved. *)
Example list_sort_is_stable :
  list_sort fst [(2, "a"); (1, "b"); (2, "c"); (1, "d")]%string
  = [(1, "b"); (1, "d"); (2, "a"); (2, "c")]%string.
Proof. reflexivity. Qed.

Example timedelta_seconds_ties_to_even :
  timedelta_seconds (Qmake 5 10000000) = 0
  ∧ timedelta_seconds (Qmake 15 10000000) = 2.
Proof. split; reflexivity. Qed.

(** * Further properties of the handlers *)

(** ** Ranges *)

Lemma le_unsigned_range bs : 0 ≤ le_unsigned bs < 256 ^ len bs.
Proof.
  induction bs as [|b bs IH].
  - simpl. unfold len. simpl. lia.
  - cbn [le_unsigned]. pose proof (byte_val_range b).
    unfold len in *. cbn [length]. rewrite Nat2Z.inj_succ, Z.pow_succ_r by lia.
    lia.
Qed.

Lemma sint24_le_range g : -8388608 ≤ sint24_le g < 8388608.
Proof.
  destruct g as [[b0 b1] b2]. unfold sint24_le.
  pose proof (byte_val_range b0). pose proof (byte_val_range b1).
  pose proof (byte_val_range b2).
  destruct (Z.leb_spec 8388608
              (byte_val b0 + 256 * byte_val b1 + 65536 * byte_val b2)); lia.
Qed.

Lemma amplitudes_of_payload_range data :
  Forall (λ v, -8388608 ≤ v < 8388608) (amplitudes_of_payload data).
Proof.
  unfold amplitudes_of_payload. destruct data as [|tag rest]; [constructor|].
  destruct (byte_val tag =? 0); [|constructor].
  apply Forall_fmap, Forall_forall. intros g _. apply sint24_le_range.
Qed.

(** X1: every sample a session has stored is a signed 24-bit value. *)
Theorem stored_samples_are_24_bit st :
  reachable st →
  Forall (λ v, -8388608 ≤ v < 8388608) (ecg_session_data st).
Proof.
  unfold reachable.
  apply (rtc_ind_r
           (λ st, Forall (λ v, -8388608 ≤ v < 8388608) (ecg_session_data st))
           initial_state).
  - constructor.
  - intros st1 st2 _ [[data|now data] Hn] IH; simpl in Hn.
    + rewrite pmd_data_handler_spec in Hn. injection Hn as <-.
      destruct (append_waveform_fields (amplitudes_of_payload data) st1)
        as [-> _].
      apply Forall_app. split; [exact IH|apply amplitudes_of_payload_range].
    + apply heart_rate_notification_handler_returned in Hn as [-> _].
      exact IH.
Qed.

Lemma stored_samples_are_24_bit_witness :
  reachable session_of_three
  ∧ Forall (λ v, -8388608 ≤ v < 8388608) (ecg_session_data session_of_three).
Proof.
  split; [exact session_of_three_reachable|].
  apply (stored_samples_are_24_bit session_of_three).
  exact session_of_three_reachable.
Defined.

(** ** Samples per packet *)

Lemma groups3_length bs : length (groups3 bs) = (length bs / 3)%nat.
Proof.
  remember (length bs) as n eqn:Hn. revert bs Hn.
  induction n as [n IH] using lt_wf_ind. intros bs Hn.
  destruct bs as [|b0 [|b1 [|b2 rest]]]; subst n; try reflexivity.
  cbn [groups3 length]. rewrite (IH (length rest)) by (simpl; lia || reflexivity).
  change (S (S (S (length rest)))) with (3 + length rest)%nat.
  replace (3 + length rest)%nat with (length rest + 1 * 3)%nat by lia.
  rewrite Nat.div_add by lia. lia.
Qed.

Lemma amplitudes_of_payload_length data :
  length (amplitudes_of_payload data) = samples_in data.
Proof.
  unfold amplitudes_of_payload, samples_in. destruct data as [|tag rest];
    [reflexivity|].
  destruct (byte_val tag =? 0); [|reflexivity].
  rewrite length_fmap, groups3_length, length_drop. reflexivity.
Qed.

(** X2: a packet with tag 0x00 and [n] bytes adds [(n - 10) / 3] samples
    (none when it has fewer than 13 bytes), any other payload adds none;
    the counter, the samples and the times all grow by that number. *)
Theorem samples_per_packet data st :
  ∃ st',
    pmd_data_handler data st = Returned st'
    ∧ sample_counter st' = sample_counter st + Z.of_nat (samples_in data)
    ∧ length (ecg_session_data st')
      = (length (ecg_session_data st) + samples_in data)%nat
    ∧ length (ecg_session_time st')
      = (length (ecg_session_time st) + samples_in data)%nat.
Proof.
  eexists. split; [apply pmd_data_handler_spec|].
  destruct (append_waveform_fields (amplitudes_of_payload data) st)
    as (-> & -> & -> & _).
  rewrite !length_app, times_from_length. unfold len.
  rewrite amplitudes_of_payload_length. repeat split; reflexivity.
Qed.

(** ** What each handler leaves alone *)

(** X3: a waveform notification never touches the heart rate or its
    log, and a heart-rate notification never touches the samples, the
    times or the counter. *)
Theorem handlers_keep_to_their_globals n st st' :
  deliver n st = Returned st' →
  match n with
  | PmdData _ =>
      current_ble_hr st' = current_ble_hr st ∧ hr_log st' = hr_log st
  | HeartRateMeasurement _ _ =>
      ecg_session_data st' = ecg_session_data st
      ∧ ecg_session_time st' = ecg_session_time st
      ∧ sample_counter st' = sample_counter st
  end.
Proof.
  destruct n as [data|now data]; cbn [deliver]; intros Hn.
  - rewrite pmd_data_handler_spec in Hn. injection Hn as <-.
    destruct (append_waveform_fields (amplitudes_of_payload data) st)
      as (_ & _ & _ & Hhr & Hlog).
    split; assumption.
  - apply heart_rate_notification_handler_returned in Hn
      as (Hd & Ht & Hc & _).
    repeat split; assumption.
Qed.

Lemma handlers_keep_to_their_globals_witness :
  deliver (HeartRateMeasurement 5000123 [x00; x48])
    (mkState [100; -50; 200] [Qmake 0 100; Qmake 1 100; Qmake 2 100] 3 None [])
  = Returned session_of_three
  ∧ ecg_session_data session_of_three = [100; -50; 200]
  ∧ ecg_session_time session_of_three
    = [Qmake 0 100; Qmake 1 100; Qmake 2 100]
  ∧ sample_counter session_of_three = 3.
Proof.
  split; [vm_compute; reflexivity|].
  apply (handlers_keep_to_their_globals
           (HeartRateMeasurement 5000123 [x00; x48])
           (mkState [100; -50; 200]
              [Qmake 0 100; Qmake 1 100; Qmake 2 100] 3 None [])
           session_of_three).
  vm_compute. reflexivity.
Defined.

(** ** The session as a function of the stream *)

Lemma after_fields n st :
  ecg_session_data (after n st)
    = ecg_session_data st ++ waveform_of [n]
  ∧ ecg_session_time (after n st)
    = ecg_session_time st
      ++ times_from (sample_counter st) (length (waveform_of [n]))
  ∧ sample_counter (after n st)
    = sample_counter st + len (waveform_of [n])
  ∧ hr_log (after n st) = hr_log st ++ heart_rates_of [n]
  ∧ current_ble_hr (after n st)
    = match last (heart_rates_of [n]) with
      | Some e => Some e.2
      | None => current_ble_hr st
      end.
Proof.
  unfold after, waveform_of, heart_rates_of.
  destruct n as [data|now data]; cbn [deliver mbind list_bind].
  - rewrite pmd_data_handler_spec, !app_nil_r.
    destruct (append_waveform_fields (amplitudes_of_payload data) st)
      as (-> & -> & -> & -> & ->).
    repeat split; reflexivity.
  - unfold heart_rate_notification_handler.
    destruct (parse_heart_rate_measurement data) as [hr|e|]; simpl;
      rewrite ?app_nil_r; unfold len; simpl; rewrite ?Z.add_0_r;
      repeat split; reflexivity.
Qed.

Lemma waveform_of_cons n ns : waveform_of (n :: ns) = waveform_of [n] ++ waveform_of ns.
Proof. unfold waveform_of. cbn [mbind list_bind]. rewrite app_nil_r. reflexivity. Qed.

Lemma heart_rates_of_cons n ns :
  heart_rates_of (n :: ns) = heart_rates_of [n] ++ heart_rates_of ns.
Proof. unfold heart_rates_of. cbn [mbind list_bind]. rewrite app_nil_r. reflexivity. Qed.

Lemma run_notifications_fields ns st :
  ecg_session_data (run_notifications ns st)
    = ecg_session_data st ++ waveform_of ns
  ∧ ecg_session_time (run_notifications ns st)
    = ecg_session_time st
      ++ times_from (sample_counter st) (length (waveform_of ns))
  ∧ sample_counter (run_notifications ns st)
    = sample_counter st + len (waveform_of ns)
  ∧ hr_log (run_notifications ns st) = hr_log st ++ heart_rates_of ns
  ∧ current_ble_hr (run_notifications ns st)
    = match last (heart_rates_of ns) with
      | Some e => Some e.2
      | None => current_ble_hr st
      end.
Proof.
  revert st. induction ns as [|n ns IH]; intros st.
  - cbn. rewrite !app_nil_r. unfold len. simpl. rewrite Z.add_0_r.
    repeat split; reflexivity.
  - change (run_notifications (n :: ns) st)
      with (run_notifications ns (after n st)).
    destruct (IH (after n st)) as (Hd & Ht & Hc & Hl & Hh).
    destruct (after_fields n st) as (Hd1 & Ht1 & Hc1 & Hl1 & Hh1).
    rewrite (waveform_of_cons n ns), (heart_rates_of_cons n ns).
    rewrite Hd, Ht, Hc, Hl, Hh, Hd1, Ht1, Hc1, Hl1, Hh1.
    rewrite <- !app_assoc, length_app, times_from_app.
    unfold len. rewrite length_app, last_app.
    repeat split; try reflexivity; try lia.
    destruct (last (heart_rates_of ns)); reflexivity.
Qed.

(** X4: after any stream of notifications, handled in order from the
    empty session, the stored samples are the amplitudes of its
    waveform packets, one packet after the other, whatever heart-rate
    notifications came in between; the counter is their number; and the
    log holds one entry for each heart-rate notification that parsed,
    in order, the ones that raised leaving no trace. *)
Theorem session_of_stream ns :
  ecg_session_data (run_notifications ns initial_state) = waveform_of ns
  ∧ ecg_session_time (run_notifications ns initial_state)
    = times_from 0 (length (waveform_of ns))
  ∧ sample_counter (run_notifications ns initial_state)
    = len (waveform_of ns)
  ∧ hr_log (run_notifications ns initial_state) = heart_rates_of ns
  ∧ current_ble_hr (run_notifications ns initial_state)
    = snd <$> last (heart_rates_of ns).
Proof.
  destruct (run_notifications_fields ns initial_state)
    as (-> & -> & -> & -> & ->).
  repeat split; try reflexivity;
    destruct (last (heart_rates_of ns)); reflexivity.
Qed.

(** X5: the heart rate on display is the one logged last, and there is
    none exactly as long as the log is empty. *)
Theorem current_ble_hr_is_last_logged st :
  reachable st → current_ble_hr st = snd <$> last (hr_log st).
Proof.
  unfold reachable.
  apply (rtc_ind_r (λ st, current_ble_hr st = snd <$> last (hr_log st))
           initial_state).
  - reflexivity.
  - intros st1 st2 _ [[data|now data] Hn] IH; simpl in Hn.
    + rewrite pmd_data_handler_spec in Hn. injection Hn as <-.
      destruct (append_waveform_fields (amplitudes_of_payload data) st1)
        as (_ & _ & _ & -> & ->).
      exact IH.
    + apply heart_rate_notification_handler_returned in Hn
        as (_ & _ & _ & hr & _ & -> & ->).
      rewrite last_snoc. reflexivity.
Qed.

Lemma current_ble_hr_is_last_logged_witness :
  reachable session_of_three
  ∧ current_ble_hr session_of_three = snd <$> last (hr_log session_of_three).
Proof.
  split; [exact session_of_three_reachable|].
  apply (current_ble_hr_is_last_logged session_of_three).
  exact session_of_three_reachable.
Defined.

(** ** The parsed heart rate *)

Lemma parse_heart_rate_measurement_single b0 :
  parse_heart_rate_measurement [b0]
  = if Z.testbit (byte_val b0) 0 then Returned 0 else Raised IndexError.
Proof.
  unfold parse_heart_rate_measurement.
  rewrite getitem_0, bind_returned, land_1_testbit.
  destruct (Z.testbit (byte_val b0) 0); reflexivity.
Qed.

(** X6: a parsed heart rate is at most 65535, and at most 255 when
    bit 0 of the flags byte is clear. *)
Theorem parsed_heart_rate_range data hr :
  parse_heart_rate_measurement data = Returned hr →
  0 ≤ hr ≤ 65535
  ∧ (∀ b0, data !! 0%nat = Some b0 → Z.testbit (byte_val b0) 0 = false →
           hr ≤ 255).
Proof.
  destruct data as [|b0 [|b1 rest]].
  - discriminate.
  - rewrite parse_heart_rate_measurement_single.
    destruct (Z.testbit (byte_val b0) 0) eqn:Hbit; [|discriminate].
    intros [= <-]. split; [lia|]. intros b [= <-]. congruence.
  - rewrite parse_heart_rate_measurement_cons.
    pose proof (byte_val_range b1) as H1.
    destruct (Z.testbit (byte_val b0) 0) eqn:Hbit; intros Hhr;
      injection Hhr as <-.
    + split; [|intros b [= <-]; congruence].
      destruct rest as [|b2 rest]; [lia|].
      pose proof (byte_val_range b2). lia.
    + split; [lia|]. intros _ _ _. lia.
Qed.

Lemma parsed_heart_rate_range_witness :
  parse_heart_rate_measurement [x01; x2c; x01] = Returned 300
  ∧ 0 ≤ 300 ≤ 65535
  ∧ (∀ b0, [x01; x2c; x01] !! 0%nat = Some b0 →
           Z.testbit (byte_val b0) 0 = false → 300 ≤ 255).
Proof.
  split; [reflexivity|].
  apply (parsed_heart_rate_range [x01; x2c; x01] 300). reflexivity.
Defined.

(** X7: the parser looks at bit 0 of the flags byte and at bytes 1 and 2
    only. The other flag bits and whatever follows byte 2 (energy
    expended, RR intervals) change neither its result nor whether it
    raises. *)
Theorem parse_reads_bit0_and_two_bytes (a b : byte) (r1 r2 : list byte) :
  Z.testbit (byte_val a) 0 = Z.testbit (byte_val b) 0 →
  take 2 r1 = take 2 r2 →
  parse_heart_rate_measurement (a :: r1)
  = parse_heart_rate_measurement (b :: r2).
Proof.
  intros Hbit Htake.
  destruct r1 as [|x1 [|y1 r1]], r2 as [|x2 [|y2 r2]]; try discriminate;
    rewrite ?parse_heart_rate_measurement_single,
            ?parse_heart_rate_measurement_cons, Hbit;
    try reflexivity.
  - injection Htake as ->. reflexivity.
  - injection Htake as -> ->. reflexivity.
Qed.

Lemma parse_reads_bit0_and_two_bytes_witness :
  Z.testbit (byte_val x01) 0 = Z.testbit (byte_val x11) 0
  ∧ take 2 [x2c; x01] = take 2 [x2c; x01; xe8; x03]
  ∧ parse_heart_rate_measurement [x01; x2c; x01]
    = parse_heart_rate_measurement [x11; x2c; x01; xe8; x03].
Proof.
  split; [reflexivity|]. split; [reflexivity|].
  apply (parse_reads_bit0_and_two_bytes x01 x11 [x2c; x01]
           [x2c; x01; xe8; x03]); reflexivity.
Defined.

Lemma strftime_seconds_whole t : strftime_seconds t mod 1000000 = 0.
Proof.
  unfold strftime_seconds. rewrite Zminus_mod, Z.mod_mod, Z.sub_diag by lia.
  reflexivity.
Qed.

(** X8: every entry of the heart-rate log of a session carries a
    timestamp on a whole second and a rate between 0 and 65535. *)
Theorem hr_log_entries_well_formed st :
  reachable st →
  Forall (λ e : datetime * Z, e.1 mod 1000000 = 0 ∧ 0 ≤ e.2 ≤ 65535)
         (hr_log st).
Proof.
  unfold reachable.
  apply (rtc_ind_r
           (λ st, Forall (λ e : datetime * Z,
                            e.1 mod 1000000 = 0 ∧ 0 ≤ e.2 ≤ 65535)
                         (hr_log st))
           initial_state).
  - constructor.
  - intros st1 st2 _ [[data|now data] Hn] IH; simpl in Hn.
    + rewrite pmd_data_handler_spec in Hn. injection Hn as <-.
      destruct (append_waveform_fields (amplitudes_of_payload data) st1)
        as (_ & _ & _ & _ & ->).
      exact IH.
    + apply heart_rate_notification_handler_returned in Hn
        as (_ & _ & _ & hr & Hparse & _ & ->).
      apply Forall_app. split; [exact IH|].
      constructor; [|constructor]. cbn [fst snd].
      split; [apply strftime_seconds_whole|].
      apply (parsed_heart_rate_range data hr Hparse).
Qed.

Lemma hr_log_entries_well_formed_witness :
  reachable session_of_three
  ∧ Forall (λ e : datetime * Z, e.1 mod 1000000 = 0 ∧ 0 ≤ e.2 ≤ 65535)
           (hr_log session_of_three).
Proof.
  split; [exact session_of_three_reachable|].
  apply (hr_log_entries_well_formed session_of_three).
  exact session_of_three_reachable.
Defined.

(** ** More on the display window *)

Lemma slice_from_suffix {A} (l : list A) i : slice_from l i `suffix_of` l.
Proof. unfold slice_from. apply suffix_drop. Qed.

Lemma last_drop_lt {A} (l : list A) k :
  (k < length l)%nat → last (drop k l) = last l.
Proof.
  intros Hk. rewrite !last_lookup, lookup_drop, length_drop.
  f_equal. lia.
Qed.

Lemma recent_window_cases (data : list Z) (times : list Q) :
  (window_size < len data
   ∧ recent_window data times
     = (drop (length data - Z.to_nat window_size) data,
        slice_from times (- window_size)))
  ∨ (len data ≤ window_size ∧ recent_window data times = (data, times)).
Proof.
  assert (0 < window_size) as Hw by (unfold window_size, SAMPLING_RATE; lia).
  unfold recent_window.
  destruct (Z.ltb_spec window_size (len data)) as [Hlong|Hshort].
  - left. split; [exact Hlong|].
    rewrite (slice_from_neg data) by assumption. reflexivity.
  - right. split; [exact Hshort|reflexivity].
Qed.

Lemma recent_window_drop (data : list Z) (times : list Q) :
  length data = length times →
  recent_window data times
  = (drop (length data - Z.to_nat window_size) data,
     drop (length data - Z.to_nat window_size) times).
Proof.
  intros Hlen.
  assert (0 < window_size) as Hw by (unfold window_size, SAMPLING_RATE; lia).
  destruct (recent_window_cases data times) as [[Hlong ->]|[Hshort ->]].
  - rewrite (slice_from_neg times) by (unfold len in *; lia).
    rewrite Hlen. reflexivity.
  - unfold len in Hshort.
    replace (length data - Z.to_nat window_size)%nat with 0%nat by lia.
    reflexivity.
Qed.

Lemma last_drop_le {A} (l : list A) k :
  (k < length l ∨ k = 0)%nat → last (drop k l) = last l.
Proof.
  intros [Hk| ->]; [apply last_drop_lt, Hk|reflexivity].
Qed.

(** X9: when every sample has its time, the window of the samples and
    the window of the times are tails of what is stored, of one length
    and never longer than [window_size]; they still end with the newest
    sample and its time, and taking the window of a window changes
    nothing. *)
Theorem recent_window_is_recent_tail (data : list Z) (times : list Q) :
  length data = length times →
  (recent_window data times).1 `suffix_of` data
  ∧ (recent_window data times).2 `suffix_of` times
  ∧ len (recent_window data times).1 ≤ window_size
  ∧ len (recent_window data times).2 = len (recent_window data times).1
  ∧ last (recent_window data times).1 = last data
  ∧ last (recent_window data times).2 = last times
  ∧ recent_window (recent_window data times).1 (recent_window data times).2
    = recent_window data times.
Proof.
  intros Hlen.
  assert (0 < window_size) as Hw by (unfold window_size, SAMPLING_RATE; lia).
  rewrite (recent_window_drop data times Hlen). cbn [fst snd].
  set (k := (length data - Z.to_nat window_size)%nat).
  assert (k < length data ∨ k = 0)%nat as Hk by (unfold k; lia).
  split; [apply suffix_drop|]. split; [apply suffix_drop|].
  split; [unfold len; rewrite length_drop; unfold k; lia|].
  split; [unfold len; rewrite !length_drop, Hlen; reflexivity|].
  split; [apply last_drop_le, Hk|].
  split; [apply last_drop_le; rewrite <- Hlen; exact Hk|].
  rewrite recent_window_drop by (rewrite !length_drop, Hlen; reflexivity).
  replace (length (drop k data) - Z.to_nat window_size)%nat with 0%nat
    by (rewrite length_drop; unfold k; lia).
  reflexivity.
Qed.

Lemma recent_window_is_recent_tail_witness :
  length long_data = length long_times
  ∧ len (recent_window long_data long_times).1 ≤ window_size
  ∧ len (recent_window long_data long_times).2
    = len (recent_window long_data long_times).1
  ∧ last (recent_window long_data long_times).1 = last long_data
  ∧ last (recent_window long_data long_times).2 = last long_times
  ∧ recent_window (recent_window long_data long_times).1
      (recent_window long_data long_times).2
    = recent_window long_data long_times.
Proof.
  split; [vm_compute; reflexivity|].
  destruct (recent_window_is_recent_tail long_data long_times)
    as (_ & _ & H3 & H4 & H5 & H6 & H7); [vm_compute; reflexivity|].
  repeat split; assumption.
Defined.

(** ** The refresh of the graph on a session *)

Lemma mapM_cons {A B} (f : A → outcome B) x l :
  mapM f (x :: l) = y ← f x; k ← mapM f l; mret (y :: k).
Proof. reflexivity. Qed.

Lemma getitem_in_range {A} (l : list A) p y :
  0 ≤ p → l !! Z.to_nat p = Some y → getitem l p = Returned y.
Proof.
  intros Hp Hy. unfold getitem.
  destruct (Z.ltb_spec p 0); [lia|]. cbv zeta.
  destruct (Z.ltb_spec p 0); [lia|]. rewrite Hy. reflexivity.
Qed.

Lemma mapM_getitem_spec {A} (l : list A) (f : Z → A) peaks :
  Forall (λ p, 0 ≤ p ∧ l !! Z.to_nat p = Some (f p)) peaks →
  mapM (getitem l) peaks = Returned (f <$> peaks).
Proof.
  induction 1 as [|p peaks [Hp Hy] _ IH]; [reflexivity|].
  rewrite mapM_cons, (getitem_in_range l p (f p) Hp Hy), bind_returned, IH.
  reflexivity.
Qed.

Lemma mapM_getitem_in_range {A} (l : list A) peaks :
  Forall (λ p, 0 ≤ p < len l) peaks →
  ∃ ys, mapM (getitem l) peaks = Returned ys
        ∧ Forall2 (λ p y, l !! Z.to_nat p = Some y) peaks ys.
Proof.
  induction 1 as [|p peaks Hp _ (ys & IH & Hys)].
  - exists []. split; [reflexivity|constructor].
  - destruct (lookup_lt_is_Some_2 l (Z.to_nat p)) as [y Hy];
      [unfold len in Hp; lia|].
    exists (y :: ys). split; [|constructor; assumption].
    rewrite mapM_cons, (getitem_in_range l p y) by (lia || exact Hy).
    rewrite bind_returned, IH. reflexivity.
Qed.

Lemma getitem_outcome {A} (l : list A) p :
  (∃ y, getitem l p = Returned y) ∨ getitem l p = Raised IndexError.
Proof.
  unfold getitem. destruct (_ <? 0); [right; reflexivity|].
  destruct (l !! _); [left; eexists; reflexivity|right; reflexivity].
Qed.

Lemma mapM_getitem_outcome {A} (l : list A) peaks :
  (∃ ys, mapM (getitem l) peaks = Returned ys)
  ∨ mapM (getitem l) peaks = Raised IndexError.
Proof.
  induction peaks as [|p peaks IH]; [left; exists []; reflexivity|].
  rewrite mapM_cons.
  destruct (getitem_outcome l p) as [[y ->]| ->]; [|right; reflexivity].
  rewrite bind_returned.
  destruct IH as [[ys ->]| ->]; [left; eexists|right]; reflexivity.
Qed.

(** X10: on a session that holds samples, when the peak search answers
    with positions inside the window, the refresh returns; the line is
    the window, and the marker of window position [p] sits on sample
    [k + p] of the session, at the time [(k + p) / SAMPLING_RATE], where
    [k] is the number of samples the window leaves out. *)
Theorem update_graph_marks_window_peaks {float : Type}
    (np_std : list Z → float) (fmul : Q → float → float)
    (find_peaks : list Z → Q → float → list Z) (st : State) :
  let k := (length (ecg_session_data st) - Z.to_nat window_size)%nat in
  let w := drop k (ecg_session_data st) in
  let peaks :=
    find_peaks w (Qmult (inject_Z SAMPLING_RATE) (Qmake 3 10))
               (fmul (Qmake 1 2) (np_std w)) in
  reachable st →
  ecg_session_data st ≠ [] →
  Forall (λ p, 0 ≤ p < len w) peaks →
  ∃ ys,
    update_graph np_std fmul find_peaks st
    = Returned
        ({| line_x := drop k (ecg_session_time st);
            line_y := w;
            r_peaks :=
              Some ((λ p, truediv (Z.of_nat k + p) SAMPLING_RATE) <$> peaks,
                    ys) |},
         current_ble_hr st)
    ∧ Forall2 (λ p y, ecg_session_data st !! (k + Z.to_nat p)%nat = Some y)
              peaks ys.
Proof.
  intros k w peaks Hreach Hne Hpeaks.
  apply session_invariant_reachable in Hreach as [_ Htimes].
  assert (0 < window_size) as Hw by (unfold window_size, SAMPLING_RATE; lia).
  assert (length (ecg_session_time st) = length (ecg_session_data st)) as Hlen
    by (rewrite Htimes; apply times_from_length).
  assert (0 < len w) as Hpos.
  { unfold w, k, len. rewrite length_drop.
    destruct (ecg_session_data st); [congruence|]. simpl length. lia. }
  destruct (mapM_getitem_in_range w peaks Hpeaks) as (ys & Hys & Hlook).
  exists ys. split.
  - unfold update_graph. rewrite recent_window_drop by (symmetry; exact Hlen).
    fold k. fold w.
    assert (len (drop k (ecg_session_time st)) = len w) as ->
      by (unfold w, len; rewrite !length_drop, Hlen; reflexivity).
    rewrite Z.eqb_refl. cbn [negb].
    destruct (Z.ltb_spec 0 (len w)); [|lia].
    fold peaks. rewrite Hys.
    rewrite (mapM_getitem_spec _
               (λ p, truediv (Z.of_nat k + p) SAMPLING_RATE)).
    + reflexivity.
    + eapply Forall_impl; [exact Hpeaks|]. intros p Hp. cbv beta in Hp.
      split; [lia|]. rewrite lookup_drop, Htimes.
      rewrite times_from_lookup.
      * do 2 f_equal. lia.
      * unfold w, k, len in Hp. rewrite length_drop in Hp. lia.
  - eapply Forall2_impl; [exact Hlook|]. intros p y Hy. cbv beta in Hy.
    unfold w in Hy. rewrite lookup_drop in Hy. exact Hy.
Qed.

Lemma update_graph_marks_window_peaks_witness :
  reachable session_of_three
  ∧ ecg_session_data session_of_three ≠ []
  ∧ Forall (λ p, 0 ≤ p < len (drop 0 (ecg_session_data session_of_three)))
           [1; 2]
  ∧ ∃ ys,
      update_graph (λ _, 0) (λ _ x, x) (λ _ _ _, [1; 2]) session_of_three
      = Returned
          ({| line_x := drop 0 (ecg_session_time session_of_three);
              line_y := drop 0 (ecg_session_data session_of_three);
              r_peaks :=
                Some ((λ p, truediv (0 + p) SAMPLING_RATE) <$> [1; 2], ys) |},
           current_ble_hr session_of_three)
      ∧ Forall2 (λ p y, ecg_session_data session_of_three
                          !! (0 + Z.to_nat p)%nat = Some y)
                [1; 2] ys.
Proof.
  split; [exact session_of_three_reachable|].
  split; [discriminate|].
  split; [repeat (constructor; [unfold len; simpl; lia|]); constructor|].
  apply (update_graph_marks_window_peaks (λ _, 0) (λ _ x, x)
           (λ _ _ _, [1; 2]) session_of_three).
  - exact session_of_three_reachable.
  - discriminate.
  - repeat (constructor; [unfold len; simpl; lia|]); constructor.
Defined.

(** X11: on a session the refresh can fail in one way only, with the
    [IndexError] of a peak position outside the window: the two columns
    of the data frame always have the same length. *)
Theorem update_graph_fails_only_on_peak_index {float : Type}
    (np_std : list Z → float) (fmul : Q → float → float)
    (find_peaks : list Z → Q → float → list Z) (st : State) :
  reachable st →
  (∃ r, update_graph np_std fmul find_peaks st = Returned r)
  ∨ update_graph np_std fmul find_peaks st = Raised IndexError.
Proof.
  intros Hreach.
  apply session_invariant_reachable in Hreach as [_ Htimes].
  assert (length (ecg_session_time st) = length (ecg_session_data st)) as Hlen
    by (rewrite Htimes; apply times_from_length).
  unfold update_graph. rewrite recent_window_drop by (symmetry; exact Hlen).
  set (k := (length (ecg_session_data st) - Z.to_nat window_size)%nat).
  assert (len (drop k (ecg_session_time st))
          = len (drop k (ecg_session_data st))) as ->
    by (unfold len; rewrite !length_drop, Hlen; reflexivity).
  rewrite Z.eqb_refl. cbn [negb].
  destruct (0 <? len (drop k (ecg_session_data st)));
    [|left; eexists; reflexivity].
  cbv zeta.
  destruct (mapM_getitem_outcome (drop k (ecg_session_time st))
              (find_peaks (drop k (ecg_session_data st))
                 (Qmult (inject_Z SAMPLING_RATE) (Qmake 3 10))
                 (fmul (Qmake 1 2) (np_std (drop k (ecg_session_data st))))))
    as [[xs ->]| ->]; [|right; reflexivity].
  rewrite bind_returned.
  destruct (mapM_getitem_outcome (drop k (ecg_session_data st))
              (find_peaks (drop k (ecg_session_data st))
                 (Qmult (inject_Z SAMPLING_RATE) (Qmake 3 10))
                 (fmul (Qmake 1 2) (np_std (drop k (ecg_session_data st))))))
    as [[ys ->]| ->]; [left; eexists; reflexivity|right; reflexivity].
Qed.

Lemma update_graph_fails_only_on_peak_index_witness :
  reachable session_of_three
  ∧ ((∃ r, update_graph (λ _, 0) (λ _ x, x) (λ _ _ _, [7]) session_of_three
           = Returned r)
     ∨ update_graph (λ _, 0) (λ _ x, x) (λ _ _ _, [7]) session_of_three
       = Raised IndexError).
Proof.
  split; [exact session_of_three_reachable|].
  apply (update_graph_fails_only_on_peak_index (λ _, 0) (λ _ x, x)
           (λ _ _ _, [7]) session_of_three).
  exact session_of_three_reachable.
Defined.

(** ** More on the export *)

Section list_sort_filter.
Context {A : Type} (key : A → Z) (P : A → Prop) `{!∀ x, Decision (P x)}.

Lemma insert_by_filter_skip x l :
  ¬ P x → filter P (insert_by key x l) = filter P l.
Proof.
  intros Hx. induction l as [|y l IH]; cbn [insert_by].
  - apply filter_cons_False, Hx.
  - destruct (key x <=? key y).
    + apply filter_cons_False, Hx.
    + rewrite !(filter_cons _ y), IH. reflexivity.
Qed.

Lemma insert_by_filter_front x l :
  P x → Forall (λ y, P y → key x ≤ key y) l →
  filter P (insert_by key x l) = x :: filter P l.
Proof.
  intros Hx. induction 1 as [|y l Hy _ IH]; cbn [insert_by].
  - apply filter_cons_True, Hx.
  - destruct (Z.leb_spec (key x) (key y)) as [Hle|Hgt].
    + apply filter_cons_True, Hx.
    + assert (¬ P y) as Hny by (intros HP; specialize (Hy HP); lia).
      rewrite !(filter_cons_False _ y) by exact Hny. exact IH.
Qed.

(** Sorting leaves alone the elements of a kind that already come in
    the order of their keys. *)
Lemma list_sort_filter_sorted l :
  StronglySorted (key_le key) (filter P l) →
  filter P (list_sort key l) = filter P l.
Proof.
  induction l as [|x l IH]; cbn [list_sort]; [reflexivity|].
  rewrite filter_cons. destruct (decide (P x)) as [Hx|Hx].
  - intros Hs. apply StronglySorted_inv in Hs as [Hs Hhd].
    rewrite insert_by_filter_front, IH; [reflexivity|exact Hs|exact Hx|].
    apply Forall_forall. intros y Hy HP.
    rewrite Forall_forall in Hhd. apply Hhd.
    apply list_elem_of_filter. split; [exact HP|].
    rewrite <- (list_sort_perm key l). exact Hy.
  - intros Hs. rewrite insert_by_filter_skip by exact Hx. apply IH, Hs.
Qed.
End list_sort_filter.

Lemma Forall_zip_with_l {A B C} (P : A → Prop) (Q : C → Prop)
    (f : A → B → C) (l : list A) (k : list B) :
  (∀ x y, P x → Q (f x y)) → Forall P l → Forall Q (zip_with f l k).
Proof.
  intros Hf Hl. revert k. induction Hl as [|x l Hx _ IH]; intros [|y k];
    cbn [zip_with]; constructor; [apply Hf, Hx|apply IH].
Qed.

Lemma filter_all {A} (P : A → Prop) `{!∀ x, Decision (P x)} l :
  Forall P l → filter P l = l.
Proof.
  induction 1 as [|x l Hx _ IH]; [reflexivity|].
  rewrite filter_cons_True, IH by exact Hx. reflexivity.
Qed.

Lemma filter_none {A} (P : A → Prop) `{!∀ x, Decision (P x)} l :
  Forall (λ x, ¬ P x) l → filter P l = [].
Proof.
  induction 1 as [|x l Hx _ IH]; [reflexivity|].
  rewrite filter_cons_False, IH by exact Hx. reflexivity.
Qed.

(** Rounding to the nearest integer stays within one half, and lands on
    an even integer when it is exactly one half away. *)
Lemma round_half_even_spec q :
  - Z.pos (Qden q) ≤ 2 * (Qnum q - Z.pos (Qden q) * round_half_even q)
    ≤ Z.pos (Qden q)
  ∧ (2 * (Qnum q - Z.pos (Qden q) * round_half_even q) = Z.pos (Qden q)
     ∨ 2 * (Qnum q - Z.pos (Qden q) * round_half_even q) = - Z.pos (Qden q)
     → Z.even (round_half_even q) = true).
Proof.
  unfold round_half_even.
  set (a := Qnum q). set (d := Z.pos (Qden q)).
  assert (0 < d) as Hd by (unfold d; lia).
  pose proof (Z.div_mod a d ltac:(lia)) as Hdiv.
  pose proof (Z.mod_pos_bound a d Hd) as Hmod.
  set (fl := a / d) in *. set (r := a mod d) in *. cbv zeta.
  destruct (Z.compare_spec (2 * r) d) as [Heq|Hlt|Hgt].
  - destruct (Z.even fl) eqn:Heven.
    + split; [nia|]. intros _. exact Heven.
    + split; [nia|]. intros _.
      rewrite Z.add_1_r, Z.even_succ, <- Z.negb_even, Heven. reflexivity.
  - split; [nia|]. intros [H|H]; nia.
  - split; [nia|]. intros [H|H]; nia.
Qed.

Lemma round_half_even_mono q1 q2 :
  Qle q1 q2 → round_half_even q1 ≤ round_half_even q2.
Proof.
  unfold Qle. intros Hle.
  destruct (round_half_even_spec q1) as [[Hlo1 _] Htie1].
  destruct (round_half_even_spec q2) as [[_ Hhi2] Htie2].
  set (n1 := round_half_even q1) in *. set (n2 := round_half_even q2) in *.
  set (a1 := Qnum q1) in *. set (a2 := Qnum q2) in *.
  set (d1 := Z.pos (Qden q1)) in *. set (d2 := Z.pos (Qden q2)) in *.
  assert (0 < d1) as Hd1 by (unfold d1; lia).
  assert (0 < d2) as Hd2 by (unfold d2; lia).
  destruct (Z.le_gt_cases n1 n2) as [H|Hgt]; [exact H|exfalso].
  assert ((2 * n2 + 1) * (d1 * d2) ≤ 2 * a1 * d2) as Hleft by nia.
  assert (2 * a2 * d1 ≤ (2 * n2 + 1) * (d1 * d2)) as Hright by nia.
  assert (2 * a1 * d2 = (2 * n2 + 1) * (d1 * d2)) as E1 by nia.
  assert (2 * a2 * d1 = (2 * n2 + 1) * (d1 * d2)) as E2 by nia.
  assert (n1 = n2 + 1) as En by nia.
  assert (2 * a1 = (2 * n2 + 1) * d1) as E1' by nia.
  assert (2 * a2 = (2 * n2 + 1) * d2) as E2' by nia.
  assert (Z.even n1 = true) as Hev1 by (apply Htie1; right; nia).
  assert (Z.even n2 = true) as Hev2 by (apply Htie2; left; nia).
  rewrite En, Z.add_1_r, Z.even_succ, <- Z.negb_even, Hev2 in Hev1.
  discriminate.
Qed.

(** A longer time is never turned into a shorter [timedelta]. *)
Lemma timedelta_seconds_mono s1 s2 :
  Qle s1 s2 → timedelta_seconds s1 ≤ timedelta_seconds s2.
Proof.
  intros Hle. unfold timedelta_seconds. apply round_half_even_mono.
  apply Qmult_le_compat_r; [exact Hle|]. unfold Qle. simpl. lia.
Qed.

Lemma ecg_rows_sorted start (times : list Q) (data : list Z) :
  StronglySorted Qle times →
  StronglySorted (key_le (λ row, to_datetime (timestamp row)))
    (zip_with (λ rel v, {| timestamp := start + timedelta_seconds rel;
                           source := "ECG"; value := v |}) times data).
Proof.
  intros Hs. revert data. induction Hs as [|t times Hs IH Ht]; intros [|v data];
    cbn [zip_with]; try constructor; [apply IH|].
  eapply Forall_zip_with_l; [|exact Ht].
  intros t' v' Hle. unfold key_le, to_datetime. cbn [timestamp].
  pose proof (timedelta_seconds_mono t t' Hle). lia.
Qed.

(** X12: when the stored times do not decrease from one sample to the
    next (each is the counter of its sample divided by the sampling
    rate), the rows of the samples stand in the export in the order the
    samples were stored, wherever the heart-rate rows fall between
    them, each at [session_start_time] plus the [timedelta] of its own
    stored time. *)
Theorem export_keeps_samples_in_order (session_start_time : datetime)
    (st : State) :
  StronglySorted Qle (ecg_session_time st) →
  ∃ rows,
    generate_combined_csv session_start_time st = Returned rows
    ∧ filter (λ r, source r = "ECG"%string) rows
      = zip_with (λ rel v, {| timestamp := session_start_time
                                           + timedelta_seconds rel;
                              source := "ECG"; value := v |})
                 (ecg_session_time st) (ecg_session_data st).
Proof.
  intros Hsorted.
  eexists. split; [reflexivity|].
  rewrite ecg_rows_zip_with, hr_rows_fmap.
  set (ecg := zip_with _ (ecg_session_time st) (ecg_session_data st)).
  set (hr := _ <$> hr_log st).
  assert (filter (λ r, source r = "ECG"%string) (ecg ++ hr) = ecg) as Hf.
  { rewrite filter_app, filter_all, filter_none; [apply app_nil_r| |].
    - apply Forall_fmap, Forall_forall. intros e _. simpl. discriminate.
    - apply (Forall_zip_with_l (λ _, True)); [reflexivity|].
      apply Forall_forall. intros; exact I. }
  rewrite list_sort_filter_sorted; rewrite Hf; [reflexivity|].
  apply ecg_rows_sorted, Hsorted.
Qed.

Lemma export_keeps_samples_in_order_witness :
  StronglySorted Qle (ecg_session_time session_of_three)
  ∧ ∃ rows,
      generate_combined_csv 7000000 session_of_three = Returned rows
      ∧ filter (λ r, source r = "ECG"%string) rows
        = [ {| timestamp := 7000000; source := "ECG"; value := 100 |};
            {| timestamp := 7010000; source := "ECG"; value := -50 |};
            {| timestamp := 7020000; source := "ECG"; value := 200 |} ].
Proof.
  assert (StronglySorted Qle (ecg_session_time session_of_three)) as Hs.
  { repeat (constructor; [|repeat (constructor; [unfold Qle; simpl; lia|]);
                            constructor]).
    constructor. }
  split; [exact Hs|].
  destruct (export_keeps_samples_in_order 7000000 session_of_three Hs)
    as (rows & Hrows & Hfilter).
  exists rows. split; [exact Hrows|]. rewrite Hfilter. reflexivity.
Defined.

(** X13: whenever the export returns, it returns one row for each pair
    of a time and a sample (as many as the shorter of the two lists
    has) and one for each log entry; the sort neither drops nor
    repeats a row. *)
Theorem export_row_count (session_start_time : datetime) (st : State) rows :
  generate_combined_csv session_start_time st = Returned rows →
  length rows
  = (length (ecg_session_time st) `min` length (ecg_session_data st)
     + length (hr_log st))%nat.
Proof.
  unfold generate_combined_csv. intros [= <-].
  rewrite (Permutation_length (list_sort_perm _ _)).
  rewrite length_app, !length_fmap, length_zip. reflexivity.
Qed.

Lemma export_row_count_witness :
  generate_combined_csv 0 session_of_three
  = Returned
      [ {| timestamp := 0; source := "ECG"; value := 100 |};
        {| timestamp := 10000; source := "ECG"; value := -50 |};
        {| timestamp := 20000; source := "ECG"; value := 200 |};
        {| timestamp := 5000000; source := "Heart Rate"; value := 72 |} ]
  ∧ 4%nat = (length (ecg_session_time session_of_three)
             `min` length (ecg_session_data session_of_three)
             + length (hr_log session_of_three))%nat.
Proof.
  split; [vm_compute; reflexivity|].
  apply (export_row_count 0 session_of_three
           [ {| timestamp := 0; source := "ECG"; value := 100 |};
             {| timestamp := 10000; source := "ECG"; value := -50 |};
             {| timestamp := 20000; source := "ECG"; value := 200 |};
             {| timestamp := 5000000; source := "Heart Rate";
                value := 72 |} ]).
  vm_compute. reflexivity.
Defined.

(** ** More on the threads *)

(** X14: however the threads interleave, no two of them are inside a
    [with data_lock:] block at once, and whenever the lock is free the
    globals are a session some prefix of the notifications has produced:
    the counter is the number of samples and every sample has its
    time. *)
Theorem lock_free_globals_are_consistent ns threads c :
  rtc thread_step (initial_config ns threads) c →
  (ble_running c ≠ None →
     ∀ i t, dash c !! i = Some t → dash_running t = None)
  ∧ (∀ i j t u, dash c !! i = Some t → dash c !! j = Some u →
       dash_running t ≠ None → dash_running u ≠ None → i = j)
  ∧ (data_lock c = None →
       (∃ k, shared c = run_notifications (take k ns) initial_state)
       ∧ sample_counter (shared c) = len (ecg_session_data (shared c))
       ∧ length (ecg_session_time (shared c))
         = length (ecg_session_data (shared c))).
Proof.
  intros Hreach.
  destruct (config_invariant_reachable ns threads c Hreach)
    as [H1 H2 [hd H3] _ _].
  split; [|split].
  - intros Hb i t Ht. destruct (dash_running t) eqn:Hrun; [|reflexivity].
    exfalso. specialize (H1 Hb).
    assert (data_lock c = Some (DashThread i))
      by (apply (H2 i t Ht); rewrite Hrun; discriminate).
    congruence.
  - intros i j t u Ht Hu Hrt Hru.
    specialize (H2 i t Ht Hrt) as Hi. specialize (H2 j u Hu Hru) as Hj.
    congruence.
  - intros Hfree.
    destruct (ble_running c) eqn:Hb.
    { assert (data_lock c = Some BleThread) by (apply H1; discriminate).
      congruence. }
    destruct H3 as [Hns Hsh].
    assert (reachable (shared c)) as Hs
      by (rewrite Hsh; apply run_notifications_rtc).
    apply session_invariant_reachable in Hs as [Hc Htimes].
    split; [|split; [exact Hc|rewrite Htimes; apply times_from_length]].
    exists (length hd). rewrite Hns, take_app_length. exact Hsh.
Qed.

Lemma lock_free_globals_are_consistent_witness :
  rtc thread_step (initial_config two_notifications 1) config_after_snapshot
  ∧ (data_lock config_after_snapshot = None →
       (∃ k, shared config_after_snapshot
             = run_notifications (take k two_notifications) initial_state)
       ∧ sample_counter (shared config_after_snapshot)
         = len (ecg_session_data (shared config_after_snapshot))
       ∧ length (ecg_session_time (shared config_after_snapshot))
         = length (ecg_session_data (shared config_after_snapshot))).
Proof.
  split; [exact config_after_snapshot_reachable|].
  apply (lock_free_globals_are_consistent two_notifications 1
           config_after_snapshot).
  exact config_after_snapshot_reachable.
Defined.

Lemma config_mid_callback_reachable :
  rtc thread_step (initial_config two_notifications 1) config_mid_callback.
Proof.
  eapply rtc_l.
  { eapply ble_acquire; [reflexivity|reflexivity|reflexivity|].
    vm_compute. reflexivity. }
  do 9 (eapply rtc_l; [eapply ble_exec; reflexivity|vm_compute]).
  eapply rtc_l; [eapply ble_release; reflexivity|vm_compute].
  eapply rtc_l;
    [eapply (dash_acquire _ 0%nat _ UpdateGraph); reflexivity|vm_compute].
  eapply rtc_l; [eapply (dash_exec _ 0%nat); reflexivity|vm_compute].
  apply rtc_refl.
Qed.

(** X15: while a callback is inside its block the globals stand still.
    Whatever step any thread takes next, the BLE thread included, the
    samples, the times, the counter, the heart rate and its log are
    after the step what they were before it. *)
Theorem globals_stand_still_during_callback ns threads c c' i t :
  rtc thread_step (initial_config ns threads) c →
  dash c !! i = Some t →
  dash_running t ≠ None →
  thread_step c c' →
  shared c' = shared c.
Proof.
  intros Hreach Ht Hrun Hstep.
  destruct (config_invariant_reachable ns threads c Hreach)
    as [H1 H2 _ H4 _].
  assert (data_lock c = Some (DashThread i)) as Hlock by exact (H2 i t Ht Hrun).
  destruct Hstep as
    [c n ns' Hr Hp Hs | c n ns' ops Hl Hr Hp Hs | c o ops Hr | c Hr
    | c j u cb Hl Hu Hr | c j u cb o ops l Hu Hr | c j u cb l Hu Hr];
    cbn [shared]; try reflexivity.
  - assert (data_lock c = Some BleThread)
      by (apply H1; rewrite Hr; discriminate).
    congruence.
  - destruct (H4 j u cb (o :: ops) l Hu Hr) as (done & Hsec & _).
    pose proof (callback_section_read_only cb) as Hro.
    rewrite Hsec in Hro. apply Forall_app in Hro as [_ Hro].
    apply Forall_cons in Hro as [Hro _].
    apply exec_op_read_only, Hro.
Qed.

Lemma globals_stand_still_during_callback_witness :
  rtc thread_step (initial_config two_notifications 1) config_mid_callback
  ∧ dash config_mid_callback !! 0%nat
    = Some (mkDash (Some (UpdateGraph, [CopyTime; ReadBleHr],
                          mkLocals [100; -50; 200] [] None [])) [])
  ∧ thread_step config_mid_callback config_mid_callback_next
  ∧ shared config_mid_callback_next = shared config_mid_callback.
Proof.
  assert (thread_step config_mid_callback config_mid_callback_next) as Hstep.
  { apply (dash_exec config_mid_callback 0%nat
             (mkDash (Some (UpdateGraph, [CopyTime; ReadBleHr],
                            mkLocals [100; -50; 200] [] None [])) [])
             UpdateGraph CopyTime [ReadBleHr]
             (mkLocals [100; -50; 200] [] None [])); reflexivity. }
  split; [exact config_mid_callback_reachable|]. split; [reflexivity|].
  split; [exact Hstep|].
  apply (globals_stand_still_during_callback two_notifications 1
           config_mid_callback config_mid_callback_next 0%nat
           (mkDash (Some (UpdateGraph, [CopyTime; ReadBleHr],
                          mkLocals [100; -50; 200] [] None [])) [])).
  - exact config_mid_callback_reachable.
  - reflexivity.
  - discriminate.
  - exact Hstep.
Defined.

Lemma lock_owner_runs_initial ns threads :
  lock_owner_runs (initial_config ns threads).
Proof. exact I. Qed.

Lemma lock_owner_runs_step c c' :
  lock_owner_runs c → thread_step c c' → lock_owner_runs c'.
Proof.
  unfold lock_owner_runs. intros Hown Hstep.
  destruct Hstep as
    [c n ns' Hr Hp Hs | c n ns' ops Hl Hr Hp Hs | c o ops Hr | c Hr
    | c i t cb Hl Ht Hr | c i t cb o ops l Ht Hr | c i t cb l Ht Hr];
    cbn [shared data_lock ble_pending ble_running dash].
  - destruct (data_lock c) as [[|i]|]; [congruence|exact Hown|exact I].
  - discriminate.
  - destruct (data_lock c) as [[|i]|]; [discriminate|exact Hown|exact I].
  - exact I.
  - eexists. split;
      [apply list_lookup_insert_eq; eapply lookup_lt_Some; exact Ht
      |discriminate].
  - destruct (data_lock c) as [[|j]|]; [exact Hown| |exact I].
    destruct Hown as (u & Hu & Hrun).
    destruct (decide (j = i)) as [->|Hne].
    + eexists. split;
        [apply list_lookup_insert_eq; eapply lookup_lt_Some; exact Ht
        |discriminate].
    + exists u. split; [|exact Hrun].
      rewrite list_lookup_insert_ne by congruence. exact Hu.
  - exact I.
Qed.

Lemma lock_owner_runs_reachable ns threads c :
  rtc thread_step (initial_config ns threads) c → lock_owner_runs c.
Proof.
  apply (rtc_ind_r lock_owner_runs (initial_config ns threads)).
  - apply lock_owner_runs_initial.
  - intros c1 c2 _ Hstep IH. eapply lock_owner_runs_step; eassumption.
Qed.

Lemma ble_block_finishes ops c :
  ble_running c = Some ops →
  rtc thread_step c
    (mkConfig (run_ops ops (shared c) no_locals).1 None (ble_pending c) None
              (dash c)).
Proof.
  revert c. induction ops as [|o ops IH]; intros c Hr.
  - apply rtc_once. apply ble_release. exact Hr.
  - eapply rtc_l; [apply (ble_exec c o ops Hr)|].
    rewrite run_ops_cons,
      (run_ops_globals ops _ (exec_op o (shared c) no_locals).2 no_locals).
    apply (IH (mkConfig (exec_op o (shared c) no_locals).1 (data_lock c)
                 (ble_pending c) (Some ops) (dash c))).
    reflexivity.
Qed.

Lemma dash_block_finishes ops c i t cb l :
  dash c !! i = Some t →
  dash_running t = Some (cb, ops, l) →
  ∃ c', rtc thread_step c c'
        ∧ data_lock c' = None
        ∧ ble_pending c' = ble_pending c
        ∧ ble_running c' = ble_running c.
Proof.
  revert c t l. induction ops as [|o ops IH]; intros c t l Ht Hr.
  - eexists. split; [apply rtc_once; eapply dash_release; eassumption|].
    repeat split.
  - edestruct (IH (mkConfig (exec_op o (shared c) l).1 (data_lock c)
                     (ble_pending c) (ble_running c)
                     (<[i := mkDash (Some (cb, ops, (exec_op o (shared c) l).2))
                                    (dash_snapshots t)]> (dash c))))
      as (c' & Hrun & Hlock & Hp & Hb).
    + cbn [dash]. apply list_lookup_insert_eq. eapply lookup_lt_Some. exact Ht.
    + reflexivity.
    + exists c'. split; [|repeat split; assumption].
      eapply rtc_l; [eapply dash_exec; eassumption|exact Hrun].
Qed.

(** Whoever holds the lock can run its block to the end. *)
Lemma lock_gets_released ns threads c :
  rtc thread_step (initial_config ns threads) c →
  ∃ c', rtc thread_step c c'
        ∧ data_lock c' = None
        ∧ ble_running c' = None
        ∧ ble_pending c' = ble_pending c.
Proof.
  intros Hreach.
  pose proof (lock_owner_runs_reachable ns threads c Hreach) as Hown.
  destruct (config_invariant_reachable ns threads c Hreach) as [H1 _ _ _ _].
  unfold lock_owner_runs in Hown.
  destruct (data_lock c) as [[|i]|] eqn:Hlock.
  - destruct (ble_running c) as [ops|] eqn:Hb; [|congruence].
    eexists. split; [apply (ble_block_finishes ops c Hb)|].
    repeat split.
  - destruct Hown as (t & Ht & Hrun).
    assert (ble_running c = None) as Hb.
    { destruct (ble_running c) eqn:Hb; [|reflexivity].
      specialize (H1 ltac:(discriminate)). discriminate. }
    destruct (dash_running t) as [[[cb ops] l]|] eqn:Hr; [|congruence].
    destruct (dash_block_finishes ops c i t cb l Ht Hr)
      as (c' & Hrtc & Hl & Hp & Hb').
    exists c'. repeat split; [exact Hrtc|exact Hl|congruence|exact Hp].
  - exists c. split; [apply rtc_refl|]. split; [exact Hlock|].
    split; [|reflexivity].
    destruct (ble_running c) eqn:Hb; [|reflexivity].
    specialize (H1 ltac:(discriminate)). discriminate.
Qed.

(** X16: the lock never wedges the BLE thread. From wherever the
    threads have got to, a notification that is waiting can be handled:
    the holder of the lock runs its block to the release, the BLE
    thread takes the notification and runs the block of its handler (if
    it enters one), and the lock is free again with the globals holding
    the session of all the notifications taken so far, this one
    included. *)
Theorem pending_notification_gets_handled ns threads c n ns' :
  rtc thread_step (initial_config ns threads) c →
  ble_pending c = n :: ns' →
  ∃ c',
    rtc thread_step c c'
    ∧ ble_pending c' = ns'
    ∧ ble_running c' = None
    ∧ data_lock c' = None
    ∧ shared c'
      = run_notifications (take (length ns - length ns') ns) initial_state.
Proof.
  intros Hreach Hpend.
  destruct (lock_gets_released ns threads c Hreach)
    as (c1 & Hrtc1 & Hl1 & Hb1 & Hp1).
  rewrite Hpend in Hp1.
  assert (∃ c', rtc thread_step c1 c' ∧ ble_pending c' = ns'
                ∧ ble_running c' = None ∧ data_lock c' = None)
    as (c' & Hrtc2 & Hp' & Hb' & Hl').
  { destruct (handler_section n) as [ops|] eqn:Hs.
    - eexists. split.
      + eapply rtc_l; [apply (ble_acquire c1 n ns' ops Hl1 Hb1 Hp1 Hs)|].
        apply (ble_block_finishes ops
                 (mkConfig (shared c1) (Some BleThread) ns' (Some ops)
                    (dash c1))).
        reflexivity.
      + repeat split.
    - eexists. split; [apply rtc_once, (ble_skip c1 n ns' Hb1 Hp1 Hs)|].
      cbn [ble_pending ble_running data_lock]. repeat split. exact Hl1. }
  exists c'. split; [etrans; eassumption|].
  split; [exact Hp'|]. split; [exact Hb'|]. split; [exact Hl'|].
  assert (rtc thread_step (initial_config ns threads) c') as Hreach'
    by (etrans; [exact Hreach|etrans; eassumption]).
  destruct (config_invariant_reachable ns threads c' Hreach')
    as [_ _ [hd H3] _ _].
  rewrite Hb', Hp' in H3. destruct H3 as [Hns Hsh].
  rewrite Hsh. f_equal. rewrite Hns at 2. rewrite Hns at 1.
  rewrite length_app.
  replace (length hd + length ns' - length ns')%nat with (length hd) by lia.
  symmetry. apply take_app_length.
Qed.

Lemma pending_notification_gets_handled_witness :
  rtc thread_step (initial_config two_notifications 1) config_mid_callback
  ∧ ble_pending config_mid_callback
    = [HeartRateMeasurement 5000123 [x00; x48]]
  ∧ ∃ c',
      rtc thread_step config_mid_callback c'
      ∧ ble_pending c' = []
      ∧ ble_running c' = None
      ∧ data_lock c' = None
      ∧ shared c'
        = run_notifications
            (take (length two_notifications - 0) two_notifications)
            initial_state.
Proof.
  split; [exact config_mid_callback_reachable|]. split; [reflexivity|].
  apply (pending_notification_gets_handled two_notifications 1
           config_mid_callback (HeartRateMeasurement 5000123 [x00; x48]) []).
  - exact config_mid_callback_reachable.
  - reflexivity.
Defined.

(** ** health-rate-temp.py *)

Lemma temp_ecg_loop_spec fuel (samples : list byte) timestamp offset st :
  0 ≤ offset →
  (length samples ≤ fuel + Z.to_nat offset)%nat →
  HealthRateTemp.ecg_loop fuel samples timestamp offset st
  = Returned
      {| HealthRateTemp.ecg_session_data :=
           HealthRateTemp.ecg_session_data st
           ++ (sint24_le <$> groups3 (drop (Z.to_nat offset) samples));
         HealthRateTemp.ecg_session_time :=
           HealthRateTemp.ecg_session_time st
           ++ replicate (length (groups3 (drop (Z.to_nat offset) samples)))
                        timestamp |}.
Proof.
  revert offset st.
  induction fuel as [|fuel IH]; intros offset st Hoff Hfuel;
    cbn [HealthRateTemp.ecg_loop];
    destruct (Z.leb_spec (offset + step) (len samples)) as [Hle|Hgt].
  - unfold step, len in Hle. lia.
  - rewrite groups3_short by (rewrite length_drop; unfold step, len in Hgt; lia).
    simpl. rewrite !app_nil_r. destruct st; reflexivity.
  - destruct (drop_three samples offset Hoff Hle) as (b0 & b1 & b2 & Hdrop).
    unfold HealthRateTemp.convert_array_to_signed_int.
    rewrite (slice_three _ _ _ _ _ _ Hoff Hdrop), int_from_bytes_three.
    cbv zeta. rewrite IH; [|unfold step; lia|unfold step; lia].
    rewrite Hdrop. cbn [groups3 fmap list_fmap length replicate
      HealthRateTemp.ecg_session_data HealthRateTemp.ecg_session_time].
    rewrite <- !app_assoc. reflexivity.
  - rewrite groups3_short by (rewrite length_drop; unfold step, len in Hgt; lia).
    simpl. rewrite !app_nil_r. destruct st; reflexivity.
Qed.

Lemma temp_pmd_data_handler_spec data st :
  HealthRateTemp.pmd_data_handler data st
  = Returned
      {| HealthRateTemp.ecg_session_data :=
           HealthRateTemp.ecg_session_data st ++ amplitudes_of_payload data;
         HealthRateTemp.ecg_session_time :=
           HealthRateTemp.ecg_session_time st
           ++ replicate (samples_in data)
                (HealthRateTemp.convert_to_unsigned_long data 1 8) |}.
Proof.
  rewrite <- amplitudes_of_payload_length.
  unfold HealthRateTemp.pmd_data_handler, amplitudes_of_payload.
  destruct data as [|tag rest].
  - simpl. rewrite !app_nil_r. destruct st; reflexivity.
  - assert ((len (tag :: rest) =? 0) = false) as ->
      by (apply Z.eqb_neq; unfold len; simpl length; lia).
    rewrite getitem_0, bind_returned.
    destruct (byte_val tag =? 0).
    + cbv zeta. rewrite slice_from_10.
      rewrite temp_ecg_loop_spec by (simpl; lia).
      rewrite length_fmap. reflexivity.
    + simpl. rewrite !app_nil_r. destruct st; reflexivity.
Qed.

(** X17: on every payload the handler of health-rate-temp.py returns
    and stores the very amplitudes the handler of main.py stores, and it
    gives each of them the same time: the little-endian unsigned value
    of the bytes 1 to 8 of the packet. *)
Theorem temp_handler_stores_same_amplitudes data st st0 :
  ∃ amplitudes st' st0',
    HealthRateTemp.pmd_data_handler data st = Returned st'
    ∧ pmd_data_handler data st0 = Returned st0'
    ∧ HealthRateTemp.ecg_session_data st'
      = HealthRateTemp.ecg_session_data st ++ amplitudes
    ∧ ecg_session_data st0' = ecg_session_data st0 ++ amplitudes
    ∧ HealthRateTemp.ecg_session_time st'
      = HealthRateTemp.ecg_session_time st
        ++ replicate (length amplitudes)
             (HealthRateTemp.convert_to_unsigned_long data 1 8).
Proof.
  exists (amplitudes_of_payload data). eexists. eexists.
  split; [apply temp_pmd_data_handler_spec|].
  split; [apply pmd_data_handler_spec|].
  split; [reflexivity|].
  split; [apply append_waveform_fields|].
  rewrite amplitudes_of_payload_length. reflexivity.
Qed.

Lemma slice_length_le {A} (l : list A) start stop :
  0 ≤ start ≤ stop → len (slice l start stop) ≤ stop - start.
Proof.
  intros H. unfold slice, len. rewrite length_take, length_drop.
  unfold clamp, len.
  destruct (Z.ltb_spec start 0), (Z.ltb_spec stop 0); lia.
Qed.

(** X18: the timestamp read from a packet is an unsigned 64-bit value,
    also when the packet is too short to hold all eight bytes. *)
Theorem temp_timestamp_is_64_bit data :
  0 ≤ HealthRateTemp.convert_to_unsigned_long data 1 8 < 2 ^ 64.
Proof.
  unfold HealthRateTemp.convert_to_unsigned_long, int_from_bytes_little.
  cbn [andb].
  pose proof (le_unsigned_range (slice data 1 (1 + 8))) as Hr.
  pose proof (slice_length_le data 1 (1 + 8) ltac:(lia)) as Hl.
  pose proof (len_nonneg (slice data 1 (1 + 8))).
  split; [lia|].
  eapply Z.lt_le_trans; [apply Hr|].
  change (2 ^ 64) with (256 ^ 8). apply Z.pow_le_mono_r; lia.
Qed.

(** X19: in every session of health-rate-temp.py each sample has its
    time: the two lists have the same length. *)
Theorem temp_lists_stay_aligned st :
  HealthRateTemp.reachable st →
  length (HealthRateTemp.ecg_session_time st)
  = length (HealthRateTemp.ecg_session_data st).
Proof.
  unfold HealthRateTemp.reachable.
  apply (rtc_ind_r
           (λ st, length (HealthRateTemp.ecg_session_time st)
                  = length (HealthRateTemp.ecg_session_data st))
           HealthRateTemp.initial_state).
  - reflexivity.
  - intros st1 st2 _ [data Hn] IH.
    rewrite temp_pmd_data_handler_spec in Hn. injection Hn as <-.
    cbn [HealthRateTemp.ecg_session_data HealthRateTemp.ecg_session_time].
    rewrite !length_app, length_replicate, IH, amplitudes_of_payload_length.
    reflexivity.
Qed.

Lemma temp_session_of_three_reachable :
  HealthRateTemp.reachable temp_session_of_three.
Proof.
  unfold HealthRateTemp.reachable.
  eapply rtc_l; [exists waveform_packet; vm_compute; reflexivity|].
  apply rtc_refl.
Qed.

Lemma temp_lists_stay_aligned_witness :
  HealthRateTemp.reachable temp_session_of_three
  ∧ length (HealthRateTemp.ecg_session_time temp_session_of_three)
    = length (HealthRateTemp.ecg_session_data temp_session_of_three).
Proof.
  split; [exact temp_session_of_three_reachable|].
  apply (temp_lists_stay_aligned temp_session_of_three).
  exact temp_session_of_three_reachable.
Defined.

(** X20: unlike the handler of main.py, the handler of
    health-rate-temp.py lets the header through: a packet that carries
    a sample never leaves behind the session a packet with another
    timestamp leaves, whatever the samples are. *)
Theorem temp_header_reaches_the_session (d1 d2 : list byte) st :
  samples_in d1 ≠ 0%nat →
  HealthRateTemp.convert_to_unsigned_long d1 1 8
  ≠ HealthRateTemp.convert_to_unsigned_long d2 1 8 →
  HealthRateTemp.pmd_data_handler d1 st
  ≠ HealthRateTemp.pmd_data_handler d2 st.
Proof.
  intros Hn Hts.
  rewrite !temp_pmd_data_handler_spec. intros [= _ Htime].
  apply app_inv_head in Htime.
  destruct (samples_in d1) as [|n1]; [congruence|].
  destruct (samples_in d2) as [|n2]; [discriminate|].
  cbn [replicate] in Htime. injection Htime as Heq _. congruence.
Qed.

Lemma temp_header_reaches_the_session_witness :
  samples_in waveform_packet ≠ 0%nat
  ∧ HealthRateTemp.convert_to_unsigned_long waveform_packet 1 8
    ≠ HealthRateTemp.convert_to_unsigned_long waveform_packet_b 1 8
  ∧ HealthRateTemp.pmd_data_handler waveform_packet
      HealthRateTemp.initial_state
    ≠ HealthRateTemp.pmd_data_handler waveform_packet_b
        HealthRateTemp.initial_state.
Proof.
  split; [vm_compute; discriminate|]. split; [vm_compute; discriminate|].
  apply (temp_header_reaches_the_session waveform_packet waveform_packet_b
           HealthRateTemp.initial_state).
  - vm_compute. discriminate.
  - vm_compute. discriminate.
Defined.

(** ** Nothing is lost in decoding *)

Lemma byte_val_inj a b : byte_val a = byte_val b → a = b.
Proof.
  unfold byte_val. intros H. apply N2Z.inj in H.
  pose proof (Byte.of_to_N a) as Ha. rewrite H, Byte.of_to_N in Ha.
  congruence.
Qed.

Lemma sint24_le_inj g1 g2 : sint24_le g1 = sint24_le g2 → g1 = g2.
Proof.
  destruct g1 as [[a0 a1] a2], g2 as [[b0 b1] b2]. unfold sint24_le.
  pose proof (byte_val_range a0). pose proof (byte_val_range a1).
  pose proof (byte_val_range a2). pose proof (byte_val_range b0).
  pose proof (byte_val_range b1). pose proof (byte_val_range b2).
  intros Heq.
  assert (byte_val a0 = byte_val b0 ∧ byte_val a1 = byte_val b1
          ∧ byte_val a2 = byte_val b2) as (E0 & E1 & E2).
  { destruct (Z.leb_spec 8388608
                (byte_val a0 + 256 * byte_val a1 + 65536 * byte_val a2)),
             (Z.leb_spec 8388608
                (byte_val b0 + 256 * byte_val b1 + 65536 * byte_val b2));
      lia. }
  apply byte_val_inj in E0, E1, E2. congruence.
Qed.

Lemma fmap_sint24_le_inj (gs1 gs2 : list (byte * byte * byte)) :
  sint24_le <$> gs1 = sint24_le <$> gs2 → gs1 = gs2.
Proof.
  revert gs2. induction gs1 as [|g gs1 IH]; intros [|g' gs2];
    try discriminate; [reflexivity|].
  cbn [fmap list_fmap]. intros [= Hg Hgs].
  f_equal; [apply sint24_le_inj, Hg|apply IH, Hgs].
Qed.

Lemma same_session_same_amplitudes d1 d2 st :
  pmd_data_handler d1 st = pmd_data_handler d2 st →
  amplitudes_of_payload d1 = amplitudes_of_payload d2.
Proof.
  rewrite !pmd_data_handler_spec. intros Heq. injection Heq as Heq.
  apply (f_equal ecg_session_data) in Heq.
  destruct (append_waveform_fields (amplitudes_of_payload d1) st) as [Hd1 _].
  destruct (append_waveform_fields (amplitudes_of_payload d2) st) as [Hd2 _].
  rewrite Hd1, Hd2 in Heq. apply app_inv_head in Heq. exact Heq.
Qed.

(** X21: the stored amplitudes give the bytes back. Two packets with
    tag 0x00 that take a session to the same session have the same
    complete 3-byte groups after the header: the tag and those groups
    are exactly what the handler depends on. *)
Theorem decoding_is_lossless (r1 r2 : list byte) st :
  pmd_data_handler (x00 :: r1) st = pmd_data_handler (x00 :: r2) st →
  groups3 (slice_from (x00 :: r1) 10) = groups3 (slice_from (x00 :: r2) 10).
Proof.
  intros Heq. apply same_session_same_amplitudes in Heq.
  rewrite !slice_from_10. apply fmap_sint24_le_inj. exact Heq.
Qed.

Lemma decoding_is_lossless_witness :
  pmd_data_handler (x00 :: drop 1 waveform_packet) initial_state
  = pmd_data_handler (x00 :: drop 1 waveform_packet_b) initial_state
  ∧ groups3 (slice_from (x00 :: drop 1 waveform_packet) 10)
    = groups3 (slice_from (x00 :: drop 1 waveform_packet_b) 10).
Proof.
  split; [vm_compute; reflexivity|].
  apply (decoding_is_lossless (drop 1 waveform_packet)
           (drop 1 waveform_packet_b) initial_state).
  vm_compute. reflexivity.
Defined.

(** ** Packets cut on a group boundary *)

Lemma groups3_ungroup3_app (gs : list (byte * byte * byte)) rest :
  groups3 (ungroup3 gs ++ rest) = gs ++ groups3 rest.
Proof.
  unfold ungroup3. induction gs as [|[[b0 b1] b2] gs IH]; [reflexivity|].
  cbn [mbind list_bind app]. simpl. rewrite IH. reflexivity.
Qed.

Lemma amplitudes_of_payload_split hdr gs rest :
  length hdr = 10%nat →
  amplitudes_of_payload (hdr ++ ungroup3 gs ++ rest)
  = amplitudes_of_payload (hdr ++ ungroup3 gs)
    ++ amplitudes_of_payload (hdr ++ rest).
Proof.
  intros Hlen. destruct hdr as [|tag hdr']; [discriminate|].
  unfold amplitudes_of_payload. cbn [app].
  destruct (byte_val tag =? 0); [|reflexivity].
  change (tag :: hdr' ++ ?x) with ((tag :: hdr') ++ x).
  rewrite !(drop_app_length' (tag :: hdr')) by (symmetry; exact Hlen).
  rewrite groups3_ungroup3_app, fmap_app. f_equal.
  rewrite <- (app_nil_r (ungroup3 gs)), groups3_ungroup3_app.
  cbn [groups3]. rewrite app_nil_r. reflexivity.
Qed.

(** X22: where the transport cuts the sample stream does not matter as
    long as it cuts between samples. A packet whose samples are split
    after a whole number of 3-byte groups, each part sent behind the
    same 10-byte header, leaves the session the one packet would have
    left. *)
Theorem packets_split_between_samples hdr gs rest st :
  length hdr = 10%nat →
  pmd_data_handler (hdr ++ ungroup3 gs ++ rest) st
  = pmd_data_handler (hdr ++ ungroup3 gs) st
    ≫= pmd_data_handler (hdr ++ rest).
Proof.
  intros Hlen. rewrite (pmd_data_handler_spec (hdr ++ ungroup3 gs)).
  rewrite bind_returned, !pmd_data_handler_spec.
  rewrite amplitudes_of_payload_split by exact Hlen.
  unfold append_waveform. rewrite foldl_app. reflexivity.
Qed.

Lemma packets_split_between_samples_witness :
  length (take 10 waveform_packet) = 10%nat
  ∧ pmd_data_handler
      (take 10 waveform_packet ++ ungroup3 [(x64, x00, x00)]
       ++ [xce; xff; xff; xc8; x00; x00]) initial_state
    = pmd_data_handler
        (take 10 waveform_packet ++ ungroup3 [(x64, x00, x00)]) initial_state
      ≫= pmd_data_handler
           (take 10 waveform_packet ++ [xce; xff; xff; xc8; x00; x00]).
Proof.
  split; [reflexivity|].
  apply (packets_split_between_samples (take 10 waveform_packet)
           [(x64, x00, x00)] [xce; xff; xff; xc8; x00; x00] initial_state).
  reflexivity.
Defined.

(** ** Snapshots never go back *)

Lemma exec_op_extends o st l :
  ecg_session_data st `prefix_of` ecg_session_data (exec_op o st l).1
  ∧ ecg_session_time st `prefix_of` ecg_session_time (exec_op o st l).1.
Proof.
  destruct o; cbn [exec_op fst ecg_session_data ecg_session_time];
    split; first [reflexivity|apply prefix_app_r; reflexivity].
Qed.

Lemma StronglySorted_snoc {A} (R : A → A → Prop) l x :
  StronglySorted R l → Forall (λ y, R y x) l → StronglySorted R (l ++ [x]).
Proof.
  induction 1 as [|y l Hs IH Hy]; intros Hx; cbn [app].
  - repeat constructor.
  - apply Forall_cons in Hx as [Hyx Hx].
    constructor; [apply IH, Hx|].
    apply Forall_app. split; [exact Hy|repeat constructor; exact Hyx].
Qed.

Lemma StronglySorted_lookup_le {A} (R : A → A → Prop) `{!Reflexive R}
    l a b x y :
  StronglySorted R l → l !! a = Some x → l !! b = Some y → (a ≤ b)%nat →
  R x y.
Proof.
  intros Hs. revert a b. induction Hs as [|z l Hs IH Hz]; intros a b Ha Hb Hab.
  - discriminate.
  - destruct a as [|a], b as [|b]; cbn in Ha, Hb.
    + injection Ha as <-. injection Hb as <-. reflexivity.
    + injection Ha as <-. rewrite Forall_forall in Hz. apply Hz.
      eapply list_elem_of_lookup_2. exact Hb.
    + lia.
    + apply (IH a b Ha Hb). lia.
Qed.

Lemma not_newer_refl : Reflexive not_newer.
Proof. intros s. split; reflexivity. Qed.

Lemma snapshots_monotone_initial ns threads :
  snapshots_monotone (initial_config ns threads).
Proof.
  intros i t Ht. cbn in Ht. apply lookup_replicate in Ht as [-> _].
  split; constructor.
Qed.

Lemma snapshots_monotone_step ns c c' :
  config_invariant ns c → snapshots_monotone c → thread_step c c' →
  snapshots_monotone c'.
Proof.
  intros [_ _ _ H4 _] Hmono Hstep.
  assert (∀ o l i t, dash c !! i = Some t →
            Forall (λ s : callback * Locals,
                      data_copy s.2
                        `prefix_of` ecg_session_data (exec_op o (shared c) l).1
                      ∧ times_copy s.2
                        `prefix_of` ecg_session_time (exec_op o (shared c) l).1)
                   (dash_snapshots t)) as Hgrow.
  { intros o l i t Ht. destruct (Hmono i t Ht) as [_ Hb].
    eapply Forall_impl; [exact Hb|]. intros s [Hd Htm].
    destruct (exec_op_extends o (shared c) l) as [Hd' Htm'].
    split; etrans; eassumption. }
  destruct Hstep as
    [c n ns' Hr Hp Hs | c n ns' ops Hl Hr Hp Hs | c o ops Hr | c Hr
    | c i t cb Hl Ht Hr | c i t cb o ops l Ht Hr | c i t cb l Ht Hr];
    intros j t' Ht'; cbn [shared dash] in *.
  - exact (Hmono j t' Ht').
  - exact (Hmono j t' Ht').
  - split; [apply (Hmono j t' Ht')|apply (Hgrow _ _ j t' Ht')].
  - exact (Hmono j t' Ht').
  - destruct (insert_lookup_cases _ _ _ _ _ _ Ht Ht') as [[-> ->]|[Hne Hj]].
    + exact (Hmono i t Ht).
    + exact (Hmono j t' Hj).
  - destruct (insert_lookup_cases _ _ _ _ _ _ Ht Ht') as [[-> ->]|[Hne Hj]].
    + split; [apply (Hmono i t Ht)|apply (Hgrow _ _ i t Ht)].
    + split; [apply (Hmono j t' Hj)|apply (Hgrow _ _ j t' Hj)].
  - destruct (insert_lookup_cases _ _ _ _ _ _ Ht Ht') as [[-> ->]|[Hne Hj]];
      [|exact (Hmono j t' Hj)].
    destruct (Hmono i t Ht) as [Hsorted Hbelow].
    destruct (H4 i t cb [] l Ht Hr) as (done & Hsec & Hl).
    rewrite app_nil_r in Hsec. subst done.
    destruct (atomic_snapshot_fields cb (shared c)) as (Hd & Htm & _).
    unfold atomic_snapshot in Hd, Htm. rewrite <- Hl in Hd, Htm.
    cbn [dash_snapshots]. split.
    + apply StronglySorted_snoc; [exact Hsorted|].
      eapply Forall_impl; [exact Hbelow|]. intros s [Hs1 Hs2].
      split; cbn [snd]; [rewrite Hd|rewrite Htm]; assumption.
    + apply Forall_app. split; [exact Hbelow|].
      constructor; [|constructor]. cbn [snd]. rewrite Hd, Htm.
      split; reflexivity.
Qed.

Lemma snapshots_monotone_reachable ns threads c :
  rtc thread_step (initial_config ns threads) c → snapshots_monotone c.
Proof.
  intros Hreach.
  enough (config_invariant ns c ∧ snapshots_monotone c) as [_ H] by exact H.
  revert c Hreach.
  apply (rtc_ind_r (λ c, config_invariant ns c ∧ snapshots_monotone c)
           (initial_config ns threads)).
  - split; [apply config_invariant_initial|apply snapshots_monotone_initial].
  - intros c1 c2 _ Hstep [Hinv Hmono]. split.
    + eapply config_invariant_step; eassumption.
    + eapply snapshots_monotone_step; eassumption.
Qed.

(** X23: what a callback thread sees never goes back. Of two snapshots
    one thread has taken, the earlier one holds a prefix of the samples
    and of the times the later one holds, whatever the other threads
    did in between. *)
Theorem snapshots_never_go_back ns threads c i t a b s1 s2 :
  rtc thread_step (initial_config ns threads) c →
  dash c !! i = Some t →
  dash_snapshots t !! a = Some s1 →
  dash_snapshots t !! b = Some s2 →
  (a ≤ b)%nat →
  data_copy s1.2 `prefix_of` data_copy s2.2
  ∧ times_copy s1.2 `prefix_of` times_copy s2.2.
Proof.
  intros Hreach Ht Ha Hb Hab.
  destruct (snapshots_monotone_reachable ns threads c Hreach i t Ht)
    as [Hsorted _].
  exact (StronglySorted_lookup_le not_newer (Reflexive0 := not_newer_refl)
           _ a b s1 s2 Hsorted Ha Hb Hab).
Qed.

Lemma config_after_two_refreshes_reachable :
  rtc thread_step (initial_config two_packets 1) config_after_two_refreshes.
Proof.
  eapply rtc_l.
  { eapply ble_acquire; [reflexivity|reflexivity|reflexivity|].
    vm_compute. reflexivity. }
  do 9 (eapply rtc_l; [eapply ble_exec; reflexivity|vm_compute]).
  eapply rtc_l; [eapply ble_release; reflexivity|vm_compute].
  eapply rtc_l;
    [eapply (dash_acquire _ 0%nat _ UpdateGraph); reflexivity|vm_compute].
  do 3 (eapply rtc_l; [eapply (dash_exec _ 0%nat); reflexivity|vm_compute]).
  eapply rtc_l; [eapply (dash_release _ 0%nat); reflexivity|vm_compute].
  eapply rtc_l.
  { eapply ble_acquire; [reflexivity|reflexivity|reflexivity|].
    vm_compute. reflexivity. }
  do 9 (eapply rtc_l; [eapply ble_exec; reflexivity|vm_compute]).
  eapply rtc_l; [eapply ble_release; reflexivity|vm_compute].
  eapply rtc_l;
    [eapply (dash_acquire _ 0%nat _ UpdateGraph); reflexivity|vm_compute].
  do 3 (eapply rtc_l; [eapply (dash_exec _ 0%nat); reflexivity|vm_compute]).
  eapply rtc_l; [eapply (dash_release _ 0%nat); reflexivity|vm_compute].
  apply rtc_refl.
Qed.

Lemma snapshots_never_go_back_witness :
  rtc thread_step (initial_config two_packets 1) config_after_two_refreshes
  ∧ dash config_after_two_refreshes !! 0%nat
    = Some (mkDash None [(UpdateGraph, graph_snapshot);
                         (UpdateGraph, second_graph_snapshot)])
  ∧ [100; -50; 200] `prefix_of` [100; -50; 200; 100; -50; 200]
  ∧ [Qmake 0 100; Qmake 1 100; Qmake 2 100]
    `prefix_of` [Qmake 0 100; Qmake 1 100; Qmake 2 100;
                 Qmake 3 100; Qmake 4 100; Qmake 5 100].
Proof.
  split; [exact config_after_two_refreshes_reachable|].
  split; [reflexivity|].
  apply (snapshots_never_go_back two_packets 1 config_after_two_refreshes
           0%nat
           (mkDash None [(UpdateGraph, graph_snapshot);
                         (UpdateGraph, second_graph_snapshot)])
           0%nat 1%nat (UpdateGraph, graph_snapshot)
           (UpdateGraph, second_graph_snapshot)).
  - exact config_after_two_refreshes_reachable.
  - reflexivity.
  - reflexivity.
  - reflexivity.
  - lia.
Defined.
